(** * FireCrawlLoader: a shallow embedding of
      [backend/open_webui/retrieval/loaders/firecrawl.py]

    The loader posts scrape and crawl requests to a FireCrawl service, polls
    crawl jobs until they finish and turns the pages it gets back into
    documents.  The embedding keeps the shape of the Python code:

    - Python [str] values are [string]s, one character per code point below
      256; the [str] methods the code calls are written out below;
    - decoded JSON bodies are values of the type [json], with Python's
      truthiness, [dict.get] and iteration;
    - [urllib.parse.urljoin] is transcribed from CPython 3.11;
    - the network, the clock and the logger are an explicit [world] that every
      operation threads through: the replies and clock readings still to come,
      the requests sent so far and the log records written so far;
    - a Python exception is the [Raise] outcome of a computation. *)

From Stdlib Require Import ZArith List String Ascii Bool Lia PrimFloat.
Import ListNotations.

Set Warnings "-register-all".
Local Open Scope string_scope.
Local Open Scope bool_scope.

(** ** Python strings *)

Module PyStr.

Definition len (s : string) : Z := Z.of_nat (String.length s).

Definition code (c : ascii) : N := N_of_ascii c.

(** [c in s] for a single character [c]. *)
Fixpoint contains (c : ascii) (s : string) : bool :=
  match s with
  | EmptyString => false
  | String a s' => Ascii.eqb a c || contains c s'
  end.

Fixpoint take (n : nat) (s : string) : string :=
  match n, s with
  | S n', String a s' => String a (take n' s')
  | _, _ => EmptyString
  end.

Fixpoint drop (n : nat) (s : string) : string :=
  match n, s with
  | S n', String _ s' => drop n' s'
  | _, _ => s
  end.

(** A slice bound as Python normalises it: a negative bound counts from the
    end, and every bound is clamped to [0 .. len s]. *)
Definition slice_index (s : string) (i : Z) : nat :=
  Z.to_nat (if (i <? 0)%Z then Z.max (i + len s) 0 else Z.min i (len s)).

(** [s[:i]], [s[i:]] and [s[i:j]]. *)
Definition upto (s : string) (i : Z) : string := take (slice_index s i) s.
Definition from (s : string) (i : Z) : string := drop (slice_index s i) s.
Definition slice (s : string) (i j : Z) : string :=
  take (slice_index s j - slice_index s i) (drop (slice_index s i) s).

(** [s.find(c)]: the first index of [c], or [-1]. *)
Fixpoint find (c : ascii) (s : string) : Z :=
  match s with
  | EmptyString => -1
  | String a s' =>
      if Ascii.eqb a c then 0
      else let i := find c s' in if (i <? 0)%Z then -1 else (i + 1)%Z
  end.

(** [s.find(c, start)]. *)
Definition find_from (c : ascii) (s : string) (start : Z) : Z :=
  let n := slice_index s start in
  let i := find c (drop n s) in
  if (i <? 0)%Z then (-1)%Z else (i + Z.of_nat n)%Z.

(** [s.rfind(c)]: the last index of [c], or [-1]. *)
Fixpoint rfind (c : ascii) (s : string) : Z :=
  match s with
  | EmptyString => -1
  | String a s' =>
      let i := rfind c s' in
      if (i <? 0)%Z then (if Ascii.eqb a c then 0%Z else (-1)%Z) else (i + 1)%Z
  end.

(** [s.split(c)] for a single character [c]. *)
Fixpoint split (c : ascii) (s : string) : list string :=
  match s with
  | EmptyString => [EmptyString]
  | String a s' =>
      if Ascii.eqb a c then EmptyString :: split c s'
      else match split c s' with
           | x :: xs => String a x :: xs
           | [] => [String a EmptyString]
           end
  end.

(** [s.split(c, 1)] where [c in s]: the text before the first [c] and the
    text after it. *)
Definition split1 (c : ascii) (s : string) : string * string :=
  (upto s (find c s), from s (find c s + 1)).

(** [sep.join(parts)]. *)
Fixpoint join (sep : string) (parts : list string) : string :=
  match parts with
  | [] => EmptyString
  | [x] => x
  | x :: xs => x ++ sep ++ join sep xs
  end.

Fixpoint lstrip_by (p : ascii -> bool) (s : string) : string :=
  match s with
  | EmptyString => EmptyString
  | String a s' => if p a then lstrip_by p s' else s
  end.

Fixpoint rstrip_by (p : ascii -> bool) (s : string) : string :=
  match s with
  | EmptyString => EmptyString
  | String a s' =>
      match rstrip_by p s' with
      | EmptyString => if p a then EmptyString else String a EmptyString
      | r => String a r
      end
  end.

(** [s.lstrip(chars)], [s.rstrip(chars)], [s.strip(chars)]. *)
Definition lstrip (chars s : string) : string := lstrip_by (fun a => contains a chars) s.
Definition rstrip (chars s : string) : string := rstrip_by (fun a => contains a chars) s.
Definition strip (chars s : string) : string := lstrip chars (rstrip chars s).

(** [str.isspace] on the code points below 256. *)
Definition isspace (c : ascii) : bool :=
  let n := code c in
  ((9 <=? n) && (n <=? 13) || (28 <=? n) && (n <=? 32) || (n =? 133) || (n =? 160))%N.

(** [s.strip()]. *)
Definition strip_ws (s : string) : string := lstrip_by isspace (rstrip_by isspace s).

(** [s.startswith(p)]. *)
Definition startswith (s p : string) : bool := String.prefix p s.

(** [s.replace(old, new)]: every occurrence of [old], scanning from the left
    and skipping over each occurrence once it is replaced.  [skip] counts the
    characters of the occurrence found last that are still to be passed. *)
Fixpoint replace_at (old new : string) (skip : nat) (s : string) : string :=
  match s with
  | EmptyString => EmptyString
  | String a s' =>
      match skip with
      | S k => replace_at old new k s'
      | O =>
          if String.prefix old s
          then new ++ replace_at old new (String.length old - 1) s'
          else String a (replace_at old new 0 s')
      end
  end.

Fixpoint intersperse (new s : string) : string :=
  match s with
  | EmptyString => new
  | String a s' => new ++ String a (intersperse new s')
  end.

Definition replace (old new s : string) : string :=
  match old with
  | EmptyString => intersperse new s
  | _ => replace_at old new 0 s
  end.

Definition isascii (c : ascii) : bool := (code c <? 128)%N.

(** [c.isalpha()] for an ASCII character. *)
Definition isalpha (c : ascii) : bool :=
  let n := code c in ((65 <=? n) && (n <=? 90) || (97 <=? n) && (n <=? 122))%N.

Definition isdigit (c : ascii) : bool :=
  let n := code c in ((48 <=? n) && (n <=? 57))%N.

(** [c.lower()] on the code points below 256. *)
Definition lower_char (c : ascii) : ascii :=
  let n := code c in
  if ((65 <=? n) && (n <=? 90) || (192 <=? n) && (n <=? 222) && negb (n =? 215))%N
  then ascii_of_N (n + 32) else c.

Fixpoint lower (s : string) : string :=
  match s with
  | EmptyString => EmptyString
  | String a s' => String (lower_char a) (lower s')
  end.

Fixpoint all_chars (p : ascii -> bool) (s : string) : bool :=
  match s with
  | EmptyString => true
  | String a s' => p a && all_chars p s'
  end.

(** [x in xs] for a list of strings. *)
Definition mem (x : string) (xs : list string) : bool := existsb (String.eqb x) xs.

End PyStr.

(** ** Values *)

(** A decoded JSON body, as [response.json()] returns it: [None], [bool],
    [int], [float], [str], [list] and [dict].  A [dict] keeps its items in
    insertion order, as Python's does. *)
Inductive json : Type :=
| JNull
| JBool (b : bool)
| JInt (n : Z)
| JFloat (f : float)
| JStr (s : string)
| JList (items : list json)
| JDict (items : list (string * json)).

(** Modelled from the spec: [ExtractUrlMode] of [open_webui.models.knowledge],
    which is not among the sources.  The spec gives it the two members
    [SCRAPE] and [CRAWL]; [UNKNOWN] stands for any other value a caller passes
    as [mode], one that compares unequal to both members. *)
Inductive ExtractUrlMode : Type :=
| SCRAPE
| CRAWL
| UNKNOWN (name : string).

(** The pieces of a formatted string.  An f-string is kept as the list of its
    literal parts and of the values it interpolates, and [str(v)] as the
    one-piece text [[Str v]]: the text Python prints for a number, a list or a
    dict is the interpreter's business.  A [str] value is its own text. *)
Inductive piece : Type :=
| Lit (s : string)
| Int (n : Z)
| Str (v : json)
| StrMode (m : ExtractUrlMode)
(** [f"{progress:.0f}"] where [progress = count / total * 100] *)
| Percent (count total : json).

Definition fstring : Type := list piece.

(** [f"{v}"] and [str(v)]. *)
Definition fmt (v : json) : piece :=
  match v with
  | JStr s => Lit s
  | _ => Str v
  end.

(** The text of a formatted string, given the text of its non-literal pieces. *)
Fixpoint render (show : piece -> string) (t : fstring) : string :=
  match t with
  | [] => EmptyString
  | Lit s :: t' => s ++ render show t'
  | p :: t' => show p ++ render show t'
  end.

(** A Python value the loader stores in a document's metadata: a value taken
    from a response as it is, or a text the loader built. *)
Inductive pyval : Type :=
| Val (v : json)
| Text (t : fstring).

(** [str(v)] as a metadata value. *)
Definition py_str (v : json) : pyval :=
  match v with
  | JStr s => Val (JStr s)
  | _ => Text [Str v]
  end.

(** Python's truth value of a JSON value: [None], [False], zero, and the
    empty string, list and dict are false. *)
Definition truthy (v : json) : bool :=
  match v with
  | JNull => false
  | JBool b => b
  | JInt n => negb (n =? 0)%Z
  | JFloat f => negb (PrimFloat.eqb f 0%float)
  | JStr s => negb (s =? "")
  | JList l => match l with [] => false | _ => true end
  | JDict l => match l with [] => false | _ => true end
  end.

(** [type(v).__name__] *)
Definition type_name (v : json) : string :=
  match v with
  | JNull => "NoneType"
  | JBool _ => "bool"
  | JInt _ => "int"
  | JFloat _ => "float"
  | JStr _ => "str"
  | JList _ => "list"
  | JDict _ => "dict"
  end.

(** *** Dictionaries *)

Section Dict.
Context {V : Type}.

(** [d.get(k)] *)
Fixpoint lookup (k : string) (d : list (string * V)) : option V :=
  match d with
  | [] => None
  | (k', v) :: d' => if String.eqb k' k then Some v else lookup k d'
  end.

(** [k in d] *)
Definition has_key (k : string) (d : list (string * V)) : bool :=
  match lookup k d with Some _ => true | None => false end.

(** [d[k] = v]: an existing key keeps its place, a new one goes last. *)
Fixpoint setitem (k : string) (v : V) (d : list (string * V)) : list (string * V) :=
  match d with
  | [] => [(k, v)]
  | (k', v') :: d' =>
      if String.eqb k' k then (k, v) :: d' else (k', v') :: setitem k v d'
  end.

End Dict.

(** ** Exceptions and outcomes *)

(** A [requests.Response]: the status line, the URL it came from, the body's
    text, and what [response.json()] does with the body: the decoded value, or
    the message of the decoding error. *)
Record Response : Type := {
  resp_status_code : Z;
  resp_reason : string;
  resp_url : string;
  resp_text : string;
  resp_json : string + json
}.

Inductive exn_class : Type :=
| ValueError
| TypeError
| AttributeError
| OverflowError
(** [requests.HTTPError], raised by [raise_for_status]; it carries the
    response *)
| HTTPError (response : Response)
(** any other exception of [requests]: no connection, a timeout, an invalid
    URL, a body that is not JSON *)
| RequestException
| Exception.

Record exn : Type := Exn { exn_class_of : exn_class; exn_msg : fstring }.

(** The outcome of a computation: a value, an exception, or [Outside] when the
    run leaves what is modelled (the scripted replies or clock readings are
    used up, or a URL has a bracketed host, which [urllib] validates with the
    [ipaddress] module). *)
Inductive result (A : Type) : Type :=
| Ok (a : A)
| Raise (e : exn)
| Outside.

Arguments Ok {A} a.
Arguments Raise {A} e.
Arguments Outside {A}.

Definition attribute_error {A} (v : json) (attr : string) : result A :=
  Raise (Exn AttributeError
           [Lit "'"; Lit (type_name v); Lit "' object has no attribute '"; Lit attr; Lit "'"]).

(** [v.get(k, default)]: only a [dict] has [get]. *)
Definition py_get (v : json) (k : string) (default : json) : result json :=
  match v with
  | JDict d => Ok (match lookup k d with Some x => x | None => default end)
  | _ => attribute_error v "get"
  end.

(** [for item in v]: a list gives its items, a dict its keys, a string its
    characters; nothing else can be iterated. *)
Definition py_iter (v : json) : result (list json) :=
  match v with
  | JList l => Ok l
  | JDict d => Ok (map (fun kv => JStr (fst kv)) d)
  | JStr s => Ok (map (fun c => JStr (String c EmptyString)) (list_ascii_of_string s))
  | _ => Raise (Exn TypeError [Lit "'"; Lit (type_name v); Lit "' object is not iterable"])
  end.

(** ** [urllib.parse] *)

Module Url.
Import PyStr.

Definition uses_relative : list string :=
  [""; "ftp"; "http"; "gopher"; "nntp"; "imap"; "wais"; "file"; "https";
   "shttp"; "mms"; "prospero"; "rtsp"; "rtspu"; "sftp"; "svn"; "svn+ssh";
   "ws"; "wss"].

Definition uses_netloc : list string :=
  [""; "ftp"; "http"; "gopher"; "nntp"; "telnet"; "imap"; "wais"; "file";
   "mms"; "https"; "shttp"; "snews"; "prospero"; "rtsp"; "rtspu"; "rsync";
   "svn"; "svn+ssh"; "sftp"; "nfs"; "git"; "git+ssh"; "ws"; "wss"].

Definition uses_params : list string :=
  [""; "ftp"; "hdl"; "prospero"; "http"; "imap"; "https"; "shttp"; "rtsp";
   "rtspu"; "sip"; "sips"; "mms"; "sftp"; "tel"].

Definition scheme_chars : string :=
  "abcdefghijklmnopqrstuvwxyzABCDEFGHIJKLMNOPQRSTUVWXYZ0123456789+-.".

(** ["".join([chr(i) for i in range(0, 0x20 + 1)])] *)
Definition _WHATWG_C0_CONTROL_OR_SPACE : string :=
  string_of_list_ascii (map ascii_of_nat (seq 0 33)).

(** [['\t', '\r', '\n']] *)
Definition _UNSAFE_URL_BYTES_TO_REMOVE : list string :=
  [String "009" EmptyString; String "013" EmptyString; String "010" EmptyString].

Definition SplitResult : Type := string * string * string * string * string.
Definition ParseResult : Type := string * string * string * string * string * string.

Definition _splitnetloc (url : string) (start : Z) : string * string :=
  let delim :=
    fold_left
      (fun delim c =>
         let wdelim := find_from c url start in
         if (wdelim >=? 0)%Z then Z.min delim wdelim else delim)
      ["/"; "?"; "#"]%char (len url) in
  (slice url start delim, from url delim).

Definition invalid_ipv6 {A} : result A :=
  Raise (Exn ValueError [Lit "Invalid IPv6 URL"]).

(** [urlsplit(url, scheme, allow_fragments)].  [_checknetloc] raises for no
    netloc of code points below 256: none of them normalises (NFKC) to text
    holding one of [/?#@:].  A netloc with both brackets goes to
    [_check_bracketed_netloc], which is not modelled. *)
Definition urlsplit (url scheme : string) (allow_fragments : bool) : result SplitResult :=
  let url := lstrip _WHATWG_C0_CONTROL_OR_SPACE url in
  let scheme := strip _WHATWG_C0_CONTROL_OR_SPACE scheme in
  let url := fold_left (fun u b => replace b "" u) _UNSAFE_URL_BYTES_TO_REMOVE url in
  let scheme := fold_left (fun s b => replace b "" s) _UNSAFE_URL_BYTES_TO_REMOVE scheme in
  let i := find ":" url in
  let '(scheme, url) :=
    if (i >? 0)%Z
       && match url with String c _ => isascii c && isalpha c | EmptyString => false end
       && all_chars (fun c => contains c scheme_chars) (upto url i)
    then (lower (upto url i), from url (i + 1))
    else (scheme, url) in
  let after_netloc : result (string * string) :=
    if upto url 2 =? "//" then
      let '(netloc, url) := _splitnetloc url 2 in
      if contains "[" netloc && negb (contains "]" netloc)
         || contains "]" netloc && negb (contains "[" netloc)
      then invalid_ipv6
      else if contains "[" netloc && contains "]" netloc then Outside
      else Ok (netloc, url)
    else Ok (EmptyString, url) in
  match after_netloc with
  | Ok (netloc, url) =>
      let '(url, fragment) :=
        if allow_fragments && contains "#" url then split1 "#" url else (url, EmptyString) in
      let '(url, query) :=
        if contains "?" url then split1 "?" url else (url, EmptyString) in
      Ok (scheme, netloc, url, query, fragment)
  | Raise e => Raise e
  | Outside => Outside
  end.

Definition _splitparams (url : string) : string * string :=
  if contains "/" url then
    let i := find_from ";" url (rfind "/" url) in
    if (i <? 0)%Z then (url, EmptyString) else (upto url i, from url (i + 1))
  else
    let i := find ";" url in (upto url i, from url (i + 1)).

Definition urlparse (url scheme : string) (allow_fragments : bool) : result ParseResult :=
  match urlsplit url scheme allow_fragments with
  | Ok (scheme, netloc, url, query, fragment) =>
      let '(url, params) :=
        if mem scheme uses_params && contains ";" url then _splitparams url
        else (url, EmptyString) in
      Ok (scheme, netloc, url, params, query, fragment)
  | Raise e => Raise e
  | Outside => Outside
  end.

Definition urlunsplit (components : SplitResult) : string :=
  let '(scheme, netloc, url, query, fragment) := components in
  let url :=
    if negb (netloc =? "")
       || (negb (scheme =? "") && mem scheme uses_netloc && negb (upto url 2 =? "//"))
    then
      let url := if negb (url =? "") && negb (upto url 1 =? "/") then "/" ++ url else url in
      "//" ++ netloc ++ url
    else url in
  let url := if negb (scheme =? "") then scheme ++ ":" ++ url else url in
  let url := if negb (query =? "") then url ++ "?" ++ query else url in
  let url := if negb (fragment =? "") then url ++ "#" ++ fragment else url in
  url.

Definition urlunparse (components : ParseResult) : string :=
  let '(scheme, netloc, url, params, query, fragment) := components in
  let url := if negb (params =? "") then url ++ ";" ++ params else url in
  urlunsplit (scheme, netloc, url, query, fragment).

(** [segments[1:-1] = filter(None, segments[1:-1])] *)
Definition filter_middle (segments : list string) : list string :=
  match segments with
  | first :: (_ :: _) as rest =>
      (first :: filter (fun s => negb (s =? "")) (removelast rest)
         ++ [last rest EmptyString])%list
  | _ => segments
  end.

(** The loop of [urljoin] over the path segments. *)
Definition resolve_segments (segments : list string) : list string :=
  fold_left
    (fun resolved_path seg =>
       if seg =? ".." then removelast resolved_path
       else if seg =? "." then resolved_path
       else (resolved_path ++ [seg])%list)
    segments [].

Definition urljoin (base url : string) : result string :=
  if base =? "" then Ok url
  else if url =? "" then Ok base
  else
    match urlparse base "" true with
    | Raise e => Raise e
    | Outside => Outside
    | Ok (bscheme, bnetloc, bpath, bparams, bquery, bfragment) =>
        match urlparse url bscheme true with
        | Raise e => Raise e
        | Outside => Outside
        | Ok (scheme, netloc, path, params, query, fragment) =>
            if negb (scheme =? bscheme) || negb (mem scheme uses_relative) then Ok url
            else if mem scheme uses_netloc && negb (netloc =? "")
            then Ok (urlunparse (scheme, netloc, path, params, query, fragment))
            else
              let netloc := if mem scheme uses_netloc then bnetloc else netloc in
              if (path =? "") && (params =? "") then
                let query := if query =? "" then bquery else query in
                Ok (urlunparse (scheme, netloc, bpath, bparams, query, fragment))
              else
                let base_parts := split "/" bpath in
                let base_parts :=
                  if negb (last base_parts EmptyString =? "")
                  then removelast base_parts else base_parts in
                let segments :=
                  if upto path 1 =? "/" then split "/" path
                  else filter_middle (base_parts ++ split "/" path)%list in
                let resolved_path := resolve_segments segments in
                let resolved_path :=
                  if mem (last segments EmptyString) ["."; ".."]
                  then (resolved_path ++ [EmptyString])%list else resolved_path in
                let joined := join "/" resolved_path in
                Ok (urlunparse (scheme, netloc,
                                (if joined =? "" then "/" else joined),
                                params, query, fragment))
        end
    end.

End Url.

Example urljoin_api_path :
  Url.urljoin "http://host/api" "/v1/scrape" = Ok "http://host/v1/scrape".
Proof. reflexivity. Qed.

(** ** The world: network, clock and log *)

Local Open Scope list_scope.

Inductive http_method : Type := GET | POST.

(** What [requests.post] and [requests.get] are called with. *)
Record request : Type := Request {
  req_method : http_method;
  req_url : string;
  req_headers : list (string * string);
  req_json : option json;
  req_timeout : option Z
}.

(** What the network does with one request: it answers, or [requests] raises
    before there is a response (no connection, a timeout, an invalid URL). *)
Inductive reply : Type :=
| Answered (r : Response)
| Unanswered (why : string).

Inductive log_level : Type := DEBUG | INFO | WARNING | ERROR.

Record log_record : Type := Log { log_level_of : log_level; log_message : fstring }.

Inductive io_event : Type :=
| Sent (r : request)
| Slept (seconds : Z).

(** The replies the network will give and the readings [time.time()] will
    return, in order, and what the loader has done so far. *)
Record world : Type := World {
  replies : list reply;
  clock : list float;
  trace : list io_event;
  log : list log_record
}.

(** A computation in the world. *)
Definition M (A : Type) : Type := world -> result A * world.

Definition ret {A} (a : A) : M A := fun w => (Ok a, w).

Definition bind {A B} (m : M A) (k : A -> M B) : M B :=
  fun w =>
    match m w with
    | (Ok a, w') => k a w'
    | (Raise e, w') => (Raise e, w')
    | (Outside, w') => (Outside, w')
    end.

Notation "x <- m ;; k" := (bind m (fun x => k))
  (at level 61, m at next level, right associativity).
Notation "m ;;; k" := (bind m (fun _ => k))
  (at level 61, right associativity).

Definition raise {A} (e : exn) : M A := fun w => (Raise e, w).

(** A pure computation that may raise. *)
Definition lift {A} (r : result A) : M A := fun w => (r, w).

(** [log.debug], [log.info], [log.warning], [log.error] *)
Definition log_at (l : log_level) (msg : fstring) : M unit :=
  fun w => (Ok tt, World (replies w) (clock w) (trace w) (log w ++ [Log l msg])).

(** [requests.post] and [requests.get]: the request goes out and the next
    scripted reply comes back. *)
Definition send (r : request) : M Response :=
  fun w =>
    match replies w with
    | [] => (Outside, w)
    | rep :: rest =>
        let w' := World rest (clock w) (trace w ++ [Sent r]) (log w) in
        match rep with
        | Answered resp => (Ok resp, w')
        | Unanswered why => (Raise (Exn RequestException [Lit why]), w')
        end
    end.

Definition requests_post (url : string) (headers : list (string * string))
    (payload : json) (timeout : Z) : M Response :=
  send (Request POST url headers (Some payload) (Some timeout)).

Definition requests_get (url : string) (headers : list (string * string)) : M Response :=
  send (Request GET url headers None None).

(** [time.time()] *)
Definition time_time : M float :=
  fun w =>
    match clock w with
    | [] => (Outside, w)
    | t :: rest => (Ok t, World (replies w) rest (trace w) (log w))
    end.

(** [time.sleep(seconds)] *)
Definition time_sleep (seconds : Z) : M unit :=
  fun w => (Ok tt, World (replies w) (clock w) (trace w ++ [Slept seconds]) (log w)).

(** [try: body / except ... as e: handler(e); raise] *)
Definition try_except {A} (body : M A) (handler : exn -> M unit) : M A :=
  fun w =>
    match body w with
    | (Raise e, w') =>
        match handler e w' with
        | (Ok _, w'') => (Raise e, w'')
        | (Raise e', w'') => (Raise e', w'')
        | (Outside, w'') => (Outside, w'')
        end
    | r => r
    end.

(** [response.ok] *)
Definition resp_ok (r : Response) : bool :=
  negb ((400 <=? resp_status_code r) && (resp_status_code r <? 600))%Z.

(** [response.raise_for_status()] *)
Definition raise_for_status (r : Response) : M unit :=
  let code := resp_status_code r in
  if ((400 <=? code) && (code <? 500))%Z then
    raise (Exn (HTTPError r)
             [Int code; Lit " Client Error: "; Lit (resp_reason r);
              Lit " for url: "; Lit (resp_url r)])
  else if ((500 <=? code) && (code <? 600))%Z then
    raise (Exn (HTTPError r)
             [Int code; Lit " Server Error: "; Lit (resp_reason r);
              Lit " for url: "; Lit (resp_url r)])
  else ret tt.

(** [response.json()] *)
Definition response_json (r : Response) : M json :=
  match resp_json r with
  | inr v => ret v
  | inl why => raise (Exn RequestException [Lit why])
  end.

(** ** Arithmetic on JSON numbers *)

(** An [int] converts to a [float] unless it rounds to [2^1024] or beyond. *)
Definition float_limit : Z := 2 ^ 1024 - 2 ^ 970.

Definition as_int (v : json) : option Z :=
  match v with
  | JInt n => Some n
  | JBool b => Some (if b then 1 else 0)%Z
  | _ => None
  end.

Definition is_number (v : json) : bool :=
  match v with
  | JInt _ | JBool _ | JFloat _ => true
  | _ => false
  end.

(** [v > 0] *)
Definition py_gt_zero (v : json) : result bool :=
  match v with
  | JInt n => Ok (n >? 0)%Z
  | JBool b => Ok b
  | JFloat f => Ok (PrimFloat.ltb 0%float f)
  | _ => Raise (Exn TypeError
                  [Lit "'>' not supported between instances of '";
                   Lit (type_name v); Lit "' and 'int'"])
  end.

(** Whether [count / total] can be computed, for a [total] that is a number
    above zero: both operands must be numbers; two integers must have a
    quotient that fits a [float], an integer beside a [float] must itself fit
    one. *)
Definition py_truediv_check (count total : json) : result unit :=
  if negb (is_number count) || negb (is_number total) then
    Raise (Exn TypeError
             [Lit "unsupported operand type(s) for /: '"; Lit (type_name count);
              Lit "' and '"; Lit (type_name total); Lit "'"])
  else
    match as_int count, as_int total with
    | Some c, Some t =>
        if (Z.abs c >=? float_limit * Z.abs t)%Z
        then Raise (Exn OverflowError [Lit "integer division result too large for a float"])
        else Ok tt
    | Some n, None | None, Some n =>
        if (Z.abs n >=? float_limit)%Z
        then Raise (Exn OverflowError [Lit "int too large to convert to float"])
        else Ok tt
    | None, None => Ok tt
    end.

(** [progress = total and count / total * 100 if total > 0 else 0]: the value
    only goes to the log, as the piece [Percent count total]; what matters to
    the run is whether computing it raises. *)
Definition progress_check (count total : json) : result unit :=
  match py_gt_zero total with
  | Ok true => if truthy total then py_truediv_check count total else Ok tt
  | Ok false => Ok tt
  | Raise e => Raise e
  | Outside => Outside
  end.

(** ** The loader *)

(** A [langchain_core] [Document], holding what it is constructed with. *)
Record Document : Type := {
  page_content : json;
  metadata : list (string * pyval)
}.

Record FireCrawlLoader : Type := {
  api_key : string;
  api_url : string;
  urls : list string;
  mode : ExtractUrlMode;
  scrape_options : list (string * json);
  crawl_options : list (string * json)
}.

(** The [urls] argument of the constructor: [Union[str, List[str]]]. *)
Inductive urls_arg : Type :=
| OneUrl (url : string)
| UrlList (urls : list string).

Definition default_api_url : string := "https://api.firecrawl.dev".
Definition default_mode : ExtractUrlMode := SCRAPE.

Definition default_scrape_options : list (string * json) :=
  [("formats", JList [JStr "markdown"]);
   ("onlyMainContent", JBool true);
   ("waitFor", JInt 500);
   ("removeBase64Images", JBool true);
   ("excludeTags", JList [JStr "nav"; JStr "footer"; JStr "aside"])].

(** The [float] that Python reads [0.1] as. *)
Definition one_tenth : float := 0x1.999999999999ap-4%float.

Definition default_crawl_options : list (string * json) :=
  [("limit", JInt 1000);
   ("maxDepth", JInt 10);
   ("delay", JFloat one_tenth);
   ("scrapeOptions",
    JDict [("formats", JList [JStr "markdown"]);
           ("onlyMainContent", JBool true);
           ("excludeTags", JList [JStr "nav"; JStr "footer"; JStr "aside"]);
           ("waitFor", JInt 0)])].

Definition __init__ (urls : urls_arg) (api_key api_url : string) (mode : ExtractUrlMode)
  : result FireCrawlLoader :=
  if match urls with
     | OneUrl url => url =? ""
     | UrlList [] => true
     | UrlList (_ :: _) => false
     end
  then Raise (Exn ValueError [Lit "At least one URL must be provided."])
  else if api_key =? ""
  then Raise (Exn ValueError [Lit "FireCrawl API key must be provided."])
  else Ok {| api_key := api_key;
             api_url := PyStr.rstrip "/" api_url;
             urls := match urls with OneUrl url => [url] | UrlList l => l end;
             mode := mode;
             scrape_options := default_scrape_options;
             crawl_options := default_crawl_options |}.

Definition _get_headers (self : FireCrawlLoader) : list (string * string) :=
  [("User-Agent", "Open WebUI (https://github.com/open-webui/open-webui) FireCrawl Loader");
   ("Authorization", ("Bearer " ++ api_key self)%string);
   ("Content-Type", "application/json")].

(** [{"url": url, **options}] *)
Definition build_payload (url : string) (options : list (string * json)) : json :=
  JDict (fold_left (fun d kv => setitem (fst kv) (snd kv) d) options [("url", JStr url)]).

(** The items of a value known to be a [dict]. *)
Definition dict_items (v : json) : list (string * json) :=
  match v with
  | JDict d => d
  | _ => []
  end.

Definition is_none (v : json) : bool :=
  match v with JNull => true | _ => false end.

(** [isinstance(v, (dict, list))] *)
Definition is_dict_or_list (v : json) : bool :=
  match v with JDict _ | JList _ => true | _ => false end.

(** [v == s] for a string [s] *)
Definition eq_str (v : json) (s : string) : bool :=
  match v with JStr s' => s' =? s | _ => false end.

(** [v.strip()] *)
Definition py_strip (v : json) : result string :=
  match v with
  | JStr s => Ok (PyStr.strip_ws s)
  | _ => attribute_error v "strip"
  end.

(** [v], once [v.startswith(...)] has been called on it *)
Definition py_startswith_self (v : json) : result string :=
  match v with
  | JStr s => Ok s
  | _ => attribute_error v "startswith"
  end.

(** [f"{e.response.status_code} - {e.response.text if e.response else str(e)}"];
    an exception of another class never reaches these handlers. *)
Definition http_error_detail (e : exn) : fstring :=
  match exn_class_of e with
  | HTTPError r =>
      [Int (resp_status_code r); Lit " - "]
        ++ (if resp_ok r then [Lit (resp_text r)] else exn_msg e)
  | _ => exn_msg e
  end.

Definition is_http_error (e : exn) : bool :=
  match exn_class_of e with HTTPError _ => true | _ => false end.

(** The two [except] clauses every request-making method ends with. *)
Definition log_and_reraise (http_prefix other_prefix : fstring) (e : exn) : M unit :=
  if is_http_error e
  then log_at ERROR (http_prefix ++ http_error_detail e)
  else log_at ERROR (other_prefix ++ exn_msg e).

(** The metadata loop of [_scrape_url]. *)
Definition scrape_extra_metadata (firecrawl_metadata : list (string * json))
    (metadata : list (string * pyval)) : list (string * pyval) :=
  fold_left
    (fun metadata kv =>
       let '(key, value) := kv in
       if negb (PyStr.mem key ["title"; "description"]) && negb (is_none value) then
         if is_dict_or_list value
         then setitem ("firecrawl_" ++ key)%string (py_str value) metadata
         else setitem ("firecrawl_" ++ key)%string (py_str value) metadata
       else metadata)
    firecrawl_metadata metadata.

(** The metadata [_scrape_url] builds for a page with the content [content],
    out of the [data] of the response. *)
Definition scrape_metadata (url : string) (content data : json) : list (string * pyval) :=
  let metadata :=
    [("source", Val (JStr url));
     ("url", Val (JStr url));
     ("firecrawl_mode", Val (JStr "scrape"));
     ("content_length",
      Val (JInt (match content with JStr s => PyStr.len s | _ => 0 end)))] in
  match lookup "metadata" (dict_items data) with
  | Some (JDict firecrawl_metadata) =>
      let metadata :=
        setitem "title"
          (Val (match lookup "title" firecrawl_metadata with
                | Some v => v | None => JStr "" end)) metadata in
      let metadata :=
        setitem "description"
          (Val (match lookup "description" firecrawl_metadata with
                | Some v => v | None => JStr "" end)) metadata in
      scrape_extra_metadata firecrawl_metadata metadata
  | _ => metadata
  end.

Definition _scrape_url (self : FireCrawlLoader) (url : string) : M (list Document) :=
  try_except
    (scrape_url <- lift (Url.urljoin (api_url self) "/v1/scrape") ;;
     let payload := build_payload url (scrape_options self) in
     log_at DEBUG [Lit "Scraping "; Lit url; Lit " with options: "; Str payload] ;;;
     response <- requests_post scrape_url (_get_headers self) payload 30 ;;
     raise_for_status response ;;;
     result <- response_json response ;;
     success <- lift (py_get result "success" (JBool false)) ;;
     if negb (truthy success) then
       error_message <- lift (py_get result "error" (JStr "Unknown error during scrape.")) ;;
       log_at ERROR [Lit "FireCrawl scrape failed for "; Lit url; Lit ": "; fmt error_message] ;;;
       raise (Exn Exception [Lit "FireCrawl scrape failed: "; fmt error_message])
     else
       data <- lift (py_get result "data" (JDict [])) ;;
       fallback <- lift (py_get data "content" (JStr "")) ;;
       content <- lift (py_get data "markdown" fallback) ;;
       blank <- (if negb (truthy content) then ret true
                 else stripped <- lift (py_strip content) ;; ret (stripped =? "")) ;;
       if blank : bool then
         log_at WARNING [Lit "No content extracted from URL: "; Lit url] ;;;
         ret []
       else
         let metadata := scrape_metadata url content data in
         ret [{| page_content := content; metadata := metadata |}])
    (log_and_reraise
       [Lit "HTTP error scraping "; Lit url; Lit ": "]
       [Lit "Error scraping "; Lit url; Lit ": "]).

(** The metadata loop of [_collect_results_sync]. *)
Definition crawl_extra_metadata (firecrawl_metadata : list (string * json))
    (metadata : list (string * pyval)) : list (string * pyval) :=
  fold_left
    (fun metadata kv =>
       let '(key, value) := kv in
       if negb (has_key key metadata)
       then setitem ("firecrawl_" ++ key)%string (Val value) metadata
       else metadata)
    firecrawl_metadata metadata.

(** The metadata [_collect_results_sync] builds for the page [item], once its
    source, title and description are read. *)
Definition crawl_metadata (firecrawl_job_id : json) (original_url : string)
    (item source_url title description : json) : list (string * pyval) :=
  let metadata :=
    [("source", Val source_url);
     ("title", Val title);
     ("description", Val description);
     ("url", Val source_url);
     ("firecrawl_mode", Val (JStr "crawl"));
     ("job_id", Val firecrawl_job_id);
     ("original_url", Val (JStr original_url))] in
  match lookup "metadata" (dict_items item) with
  | Some (JDict firecrawl_metadata) =>
      crawl_extra_metadata firecrawl_metadata metadata
  | _ => metadata
  end.

(** The body of the loop of [_collect_results_sync] over the pages, with the
    documents appended so far. *)
Fixpoint collect_pages (firecrawl_job_id : json) (original_url : string)
    (crawled_pages_data : list json) (documents : list Document) : M (list Document) :=
  match crawled_pages_data with
  | [] => ret documents
  | item :: rest =>
      fallback <- lift (py_get item "content" (JStr "")) ;;
      content <- lift (py_get item "markdown" fallback) ;;
      source_url <- lift (py_get item "sourceURL" (JStr original_url)) ;;
      if negb (truthy content) then
        log_at WARNING
          [Lit "No content found for crawled page from job "; fmt firecrawl_job_id;
           Lit ": "; fmt source_url] ;;;
        collect_pages firecrawl_job_id original_url rest documents
      else
        title_of <- lift (py_get item "metadata" (JDict [])) ;;
        title <- lift (py_get title_of "title" (JStr "")) ;;
        description_of <- lift (py_get item "metadata" (JDict [])) ;;
        description <- lift (py_get description_of "description" (JStr "")) ;;
        let metadata :=
          crawl_metadata firecrawl_job_id original_url item source_url title description in
        collect_pages firecrawl_job_id original_url rest
          (documents ++ [{| page_content := content; metadata := metadata |}])
  end.

Definition _collect_results_sync (self : FireCrawlLoader) (firecrawl_job_id : json)
    (crawled_pages_data : json) (original_url : string) : M (list Document) :=
  log_at INFO
    [Lit "Processing collected data for completed FireCrawl job "; fmt firecrawl_job_id;
     Lit " from "; Lit original_url] ;;;
  if negb (truthy crawled_pages_data) then
    log_at WARNING
      [Lit "No data provided to _collect_results_sync for FireCrawl job ";
       fmt firecrawl_job_id; Lit " (URL: "; Lit original_url; Lit ")"] ;;;
    ret []
  else
    items <- lift (py_iter crawled_pages_data) ;;
    documents <- collect_pages firecrawl_job_id original_url items [] ;;
    log_at INFO
      [Lit "Successfully processed "; Int (Z.of_nat (List.length documents));
       Lit " pages from crawled job "; fmt firecrawl_job_id; Lit " for ";
       Lit original_url] ;;;
    ret documents.

Definition poll_interval : Z := 5.
Definition max_wait_time : Z := 600.

(** [max_wait_time] as the [float] a time difference is compared with. *)
Definition max_wait_time_float : float := 600%float.

(** [f"Timeout waiting for FireCrawl job ... to complete after ... seconds."] *)
Definition timeout_message (firecrawl_job_id : json) (original_url : string) : fstring :=
  [Lit "Timeout waiting for FireCrawl job "; fmt firecrawl_job_id; Lit " (URL: ";
   Lit original_url; Lit ") to complete after "; Int max_wait_time; Lit " seconds."].

(** The [while True] loop of [_poll_crawl_status_sync].  Every turn takes one
    clock reading, so the count [turns] of turns still allowed is set, where
    the loop is entered, beyond the number of readings the world holds; the
    loop never stops for want of turns. *)
Fixpoint poll_loop (turns : nat) (self : FireCrawlLoader) (firecrawl_job_id : json)
    (status_url original_url : string) (start_time : float) : M (list Document) :=
  match turns with
  | O => lift Outside
  | S turns' =>
      current_time <- time_time ;;
      if PrimFloat.ltb max_wait_time_float (PrimFloat.sub current_time start_time) then
        let error_msg := timeout_message firecrawl_job_id original_url in
        log_at ERROR error_msg ;;;
        raise (Exn Exception error_msg)
      else
        log_at DEBUG
          [Lit "Checking status for FireCrawl job "; fmt firecrawl_job_id; Lit " (URL: ";
           Lit original_url; Lit ") via "; Lit status_url] ;;;
        response <- requests_get status_url (_get_headers self) ;;
        raise_for_status response ;;;
        status_data <- response_json response ;;
        status <- lift (py_get status_data "status" JNull) ;;
        log_at INFO
          [Lit "FireCrawl job "; fmt firecrawl_job_id; Lit " status: "; fmt status;
           Lit " (URL: "; Lit original_url; Lit ")"] ;;;
        if eq_str status "completed" then
          log_at INFO
            [Lit "FireCrawl job "; fmt firecrawl_job_id; Lit " for "; Lit original_url;
             Lit " completed. Collecting results."] ;;;
          data <- lift (py_get status_data "data" (JList [])) ;;
          _collect_results_sync self firecrawl_job_id data original_url
        else if eq_str status "failed" || eq_str status "error" then
          error_message <- lift (py_get status_data "message" (JStr "Unknown crawl error")) ;;
          log_at ERROR
            [Lit "FireCrawl job "; fmt firecrawl_job_id; Lit " for "; Lit original_url;
             Lit " failed: "; fmt error_message] ;;;
          raise (Exn Exception [Lit "FireCrawl job failed: "; fmt error_message])
        else
          count <- lift (py_get status_data "completed" (JInt 0)) ;;
          total <- lift (py_get status_data "total" (JInt 0)) ;;
          lift (progress_check count total) ;;;
          log_at INFO
            [Lit "FireCrawl job "; fmt firecrawl_job_id; Lit " progress: ";
             Percent count total; Lit "% ("; fmt count; Lit "/"; fmt total;
             Lit " pages)"] ;;;
          time_sleep poll_interval ;;;
          poll_loop turns' self firecrawl_job_id status_url original_url start_time
  end.

Definition _poll_crawl_status_sync (self : FireCrawlLoader) (firecrawl_job_id : json)
    (status_url original_url : string) : M (list Document) :=
  log_at INFO
    [Lit "Starting sync polling for FireCrawl job "; fmt firecrawl_job_id; Lit " (URL: ";
     Lit original_url; Lit ")."] ;;;
  start_time <- time_time ;;
  try_except
    (fun w =>
       poll_loop (S (List.length (clock w))) self firecrawl_job_id status_url original_url
         start_time w)
    (log_and_reraise
       [Lit "HTTP error polling status for FireCrawl job "; fmt firecrawl_job_id;
        Lit " (URL: "; Lit original_url; Lit "): "]
       [Lit "Unexpected error polling status for FireCrawl job "; fmt firecrawl_job_id;
        Lit " (URL: "; Lit original_url; Lit "): "]).

(** The status URL [_crawl_url] polls, given the URL the submission went to
    and the URL the service returned. *)
Definition polled_url (crawl_submit_url status_url : string) : string :=
  if PyStr.startswith status_url "https://" && PyStr.startswith crawl_submit_url "http://"
  then PyStr.replace "https://" "http://" status_url
  else status_url.

Definition _crawl_url (self : FireCrawlLoader) (url : string) : M (list Document) :=
  try_except
    (let crawl_url_path := "/v1/crawl" in
     crawl_submit_url <- lift (Url.urljoin (api_url self) crawl_url_path) ;;
     let payload := build_payload url (crawl_options self) in
     log_at INFO [Lit "Submitting FireCrawl crawl job for "; Lit url] ;;;
     log_at DEBUG [Lit "Crawl payload: "; Str payload] ;;;
     response <- requests_post crawl_submit_url (_get_headers self) payload 30 ;;
     raise_for_status response ;;;
     result <- response_json response ;;
     firecrawl_job_id <- lift (py_get result "id" JNull) ;;
     if negb (truthy firecrawl_job_id) then
       error_message <-
         lift (py_get result "message"
                 (JStr "FireCrawl crawl submission did not return a job ID.")) ;;
       log_at ERROR
         [Lit "FireCrawl crawl submission failed for "; Lit url; Lit ": ";
          fmt error_message] ;;;
       raise (Exn Exception [Lit "FireCrawl crawl submission failed: "; fmt error_message])
     else
       status_url <- lift (py_get result "url" JNull) ;;
       if negb (truthy status_url) then
         error_message <-
           lift (py_get result "message"
                   (JStr "FireCrawl crawl submission did not return a status URL.")) ;;
         log_at ERROR
           [Lit "FireCrawl crawl submission failed for "; Lit url; Lit ": ";
            fmt error_message] ;;;
         raise (Exn Exception [Lit "FireCrawl crawl submission failed: "; fmt error_message])
       else
         status_url <- lift (py_startswith_self status_url) ;;
         let status_url := polled_url crawl_submit_url status_url in
         log_at INFO
           [Lit "FireCrawl crawl job "; fmt firecrawl_job_id; Lit " submitted for ";
            Lit url; Lit ". Polling for completion..."] ;;;
         _poll_crawl_status_sync self firecrawl_job_id status_url url)
    (log_and_reraise
       [Lit "HTTP error submitting crawl job for "; Lit url; Lit ": "]
       [Lit "Error submitting crawl job for "; Lit url; Lit ": "]).

(** ** The two entry points *)

(** One turn of the loop of [lazy_load]: the documents of one URL. *)
Definition docs_for_url (self : FireCrawlLoader) (url_item : string) : M (list Document) :=
  match mode self with
  | SCRAPE =>
      log_at DEBUG [Lit "Scraping URL: "; Lit url_item] ;;;
      _scrape_url self url_item
  | CRAWL =>
      log_at DEBUG [Lit "Crawling URL: "; Lit url_item] ;;;
      _crawl_url self url_item
  | UNKNOWN _ =>
      log_at ERROR
        [Lit "Unknown FireCrawl mode: "; StrMode (mode self); Lit " for URL: ";
         Lit url_item] ;;;
      ret []
  end.

(** One turn of the loop of [alazy_load].  [await loop.run_in_executor(None,
    f, url_item)] hands [f url_item] to a worker thread and waits for its
    result: the loader does nothing else meanwhile, so the call is [f
    url_item]. *)
Definition adocs_for_url (self : FireCrawlLoader) (url_item : string) : M (list Document) :=
  match mode self with
  | SCRAPE =>
      log_at DEBUG [Lit "Async scraping URL: "; Lit url_item] ;;;
      _scrape_url self url_item
  | CRAWL =>
      log_at DEBUG [Lit "Async crawling URL: "; Lit url_item] ;;;
      _crawl_url self url_item
  | UNKNOWN _ =>
      log_at ERROR
        [Lit "Async loading: Unknown FireCrawl mode: "; StrMode (mode self);
         Lit " for URL: "; Lit url_item] ;;;
      ret []
  end.

(** A generator run to its end: the documents it yielded, in order, how it
    ended ([Ok tt] when it was exhausted) and the world it left. *)
Definition generated : Type := list Document * result unit * world.

(** The generator loop: the documents of each URL are computed, then yielded
    one by one, before the next URL is looked at.  An exception ends the
    generator; what was yielded before stays yielded. *)
Fixpoint generate (per_url : string -> M (list Document)) (urls : list string)
    (w : world) : generated :=
  match urls with
  | [] => ([], Ok tt, w)
  | url_item :: rest =>
      match per_url url_item w with
      | (Ok docs_for_url, w') =>
          let '(later, ending, w'') := generate per_url rest w' in
          (docs_for_url ++ later, ending, w'')
      | (Raise e, w') => ([], Raise e, w')
      | (Outside, w') => ([], Outside, w')
      end
  end.

Definition lazy_load (self : FireCrawlLoader) (w : world) : generated :=
  generate (docs_for_url self) (urls self) w.

Definition alazy_load (self : FireCrawlLoader) (w : world) : generated :=
  generate (adocs_for_url self) (urls self) w.

(** * Vocabulary of the properties *)

(** Every value [m] returns satisfies [P]. *)
Definition returns {A} (P : A -> Prop) (m : M A) : Prop :=
  forall w a w', m w = (Ok a, w') -> P a.

(** The record [lazy_load] and [alazy_load] write for a URL under a mode they
    do not know; the two differ in how the message starts. *)
Definition unknown_mode_record (prefix : string) (m : ExtractUrlMode) (url_item : string)
  : log_record :=
  Log ERROR [Lit prefix; StrMode m; Lit " for URL: "; Lit url_item].

(** ** Sample runs *)

(** A response with status 200 and the JSON body [body]. *)
Definition ok_response (body : json) : Response :=
  {| resp_status_code := 200; resp_reason := "OK"; resp_url := EmptyString;
     resp_text := EmptyString; resp_json := inr body |}.

(** A response with the status [code] and a body that is not JSON. *)
Definition error_response (code : Z) (reason : string) : Response :=
  {| resp_status_code := code; resp_reason := reason; resp_url := EmptyString;
     resp_text := EmptyString; resp_json := inl "Expecting value: line 1 column 1 (char 0)" |}.

(** A world where nothing has happened yet. *)
Definition fresh_world (replies : list reply) (clock : list float) : world :=
  World replies clock [] [].

(** The loader [FireCrawlLoader(urls, "key", api_url, mode)]. *)
Definition sample_loader (urls : list string) (api_url : string) (mode : ExtractUrlMode)
  : FireCrawlLoader :=
  {| api_key := "key";
     api_url := PyStr.rstrip "/" api_url;
     urls := urls;
     mode := mode;
     scrape_options := default_scrape_options;
     crawl_options := default_crawl_options |}.

(** ** Runs that differ in what they log *)

(** Two worlds with the same replies and clock readings to come and the same
    requests sent: they differ at most in their logs. *)
Definition same_io (w1 w2 : world) : Prop :=
  replies w1 = replies w2 /\ clock w1 = clock w2 /\ trace w1 = trace w2.

(** From worlds that differ at most in their logs, [m1] and [m2] end the same
    way and leave worlds that differ at most in their logs. *)
Definition log_equiv {A} (m1 m2 : M A) : Prop :=
  forall w1 w2, same_io w1 w2 ->
    fst (m1 w1) = fst (m2 w2) /\ same_io (snd (m1 w1)) (snd (m2 w2)).

(** A computation that takes no reply and no clock reading and sends nothing:
    it leaves a world that differs from the one it started in at most in the
    log. *)
Definition quiet {A} (m : M A) : Prop := forall w, same_io w (snd (m w)).

(** ** Pages of a crawl job *)

(** What [_collect_results_sync] reads as the content and as the source of a
    page that is a [dict]. *)
Definition page_content_of (item : json) : json :=
  match lookup "markdown" (dict_items item) with
  | Some v => v
  | None =>
      match lookup "content" (dict_items item) with
      | Some v => v
      | None => JStr EmptyString
      end
  end.

Definition page_source_of (original_url : string) (item : json) : json :=
  match lookup "sourceURL" (dict_items item) with
  | Some v => v
  | None => JStr original_url
  end.

(** [docs] are the documents of the pages of [pages] that have content, one
    for each, in the order of [pages]: each holds the content of its page and
    names the page's source. *)
Definition in_page_order (original_url : string) (pages : list json)
    (docs : list Document) : Prop :=
  map (fun d => (page_content d, lookup "source" (metadata d))) docs =
  map (fun item => (page_content_of item, Some (Val (page_source_of original_url item))))
      (filter (fun item => truthy (page_content_of item)) pages).

(** Three pages of a finished crawl job; the second has no content. *)
Definition sample_pages : list json :=
  [JDict [("markdown", JStr "A"); ("sourceURL", JStr "https://example.com/a")];
   JDict [("markdown", JStr ""); ("sourceURL", JStr "https://example.com/b")];
   JDict [("content", JStr "C"); ("metadata", JDict [("title", JStr "Page C")])]].

(** ** URLs *)

(** A character of [urllib]'s [scheme_chars]. *)
Definition is_scheme_char (c : ascii) : bool := PyStr.contains c Url.scheme_chars.

(** A character that may stand in a host name written without brackets: an
    ASCII character that is not a control character or a space and none of
    [/ ? # [ ]]. *)
Definition is_host_char (c : ascii) : bool :=
  (32 <? PyStr.code c)%N && (PyStr.code c <? 127)%N
  && negb (PyStr.contains c "/?#[]").

(** A host made of such characters, and not empty. *)
Definition plain_host (host : string) : bool :=
  negb (host =? "") && PyStr.all_chars is_host_char host.

(** What may follow the host in a base address: nothing, or a path, a query
    or a fragment. *)
Definition after_host (rest : string) : bool :=
  match rest with
  | EmptyString => true
  | String c _ => PyStr.contains c "/?#"
  end.

(** The removal of tabs and line ends at the head of [urlsplit]. *)
Definition clean_url (s : string) : string :=
  fold_left (fun u b => PyStr.replace b "" u) Url._UNSAFE_URL_BYTES_TO_REMOVE s.

(** ** Requests *)

(** The request [_scrape_url] sends for [url] to the endpoint [scrape_url]. *)
Definition scrape_request (self : FireCrawlLoader) (url scrape_url : string) : request :=
  Request POST scrape_url (_get_headers self)
    (Some (build_payload url (scrape_options self))) (Some 30%Z).

(** The request [_crawl_url] submits for [url] to the endpoint
    [crawl_submit_url]. *)
Definition crawl_request (self : FireCrawlLoader) (url crawl_submit_url : string) : request :=
  Request POST crawl_submit_url (_get_headers self)
    (Some (build_payload url (crawl_options self))) (Some 30%Z).

(** The request [_poll_crawl_status_sync] sends to [status_url]. *)
Definition status_request (self : FireCrawlLoader) (status_url : string) : request :=
  Request GET status_url (_get_headers self) None None.

(** ** Pages of a scrape *)

(** The [data] of a scrape response's body: [result.get("data", {})]. *)
Definition scraped_data (body : json) : json :=
  match lookup "data" (dict_items body) with
  | Some v => v
  | None => JDict []
  end.

(** Content that [_scrape_url] takes for none: a false value, or a string of
    white space only. *)
Definition blank (content : json) : bool :=
  negb (truthy content)
  || match content with
     | JStr s => PyStr.strip_ws s =? ""
     | _ => false
     end.

(** A response that [_scrape_url] reads a page from: its status is no error,
    its body is a [dict] whose ["success"] is true and whose ["data"], when
    there, is a [dict]. *)
Definition scrape_succeeded (r : Response) (body : json) : Prop :=
  resp_ok r = true
  /\ resp_json r = inr body
  /\ (exists items, body = JDict items)
  /\ truthy (match lookup "success" (dict_items body) with
             | Some v => v
             | None => JBool false
             end) = true
  /\ (exists items, scraped_data body = JDict items).

(** ** What a run sends *)

(** [m] only appends to the list of requests sent and pauses taken, and every
    event it appends satisfies [P]. *)
Definition emits {A} (P : io_event -> Prop) (m : M A) : Prop :=
  forall w, exists evs, trace (snd (m w)) = trace w ++ evs /\ Forall P evs.

(** The events a loader can cause: a scrape request, a crawl submission, a
    status request, each with the loader's headers, and a pause of
    [poll_interval]. *)
Definition loader_event (self : FireCrawlLoader) (ev : io_event) : Prop :=
  (exists url scrape_url, ev = Sent (scrape_request self url scrape_url))
  \/ (exists url crawl_submit_url, ev = Sent (crawl_request self url crawl_submit_url))
  \/ (exists status_url, ev = Sent (status_request self status_url))
  \/ ev = Slept poll_interval.

(** The events of polling one status URL. *)
Definition poll_event (self : FireCrawlLoader) (status_url : string) (ev : io_event) : Prop :=
  ev = Sent (status_request self status_url) \/ ev = Slept poll_interval.

(** What every request of a loader looks like: it carries the bearer
    credential and the loader's user agent; a POST has a JSON payload and a
    timeout of 30, a GET has neither. *)
Definition well_formed_request (self : FireCrawlLoader) (r : request) : Prop :=
  lookup "Authorization" (req_headers r) = Some ("Bearer " ++ api_key self)%string
  /\ lookup "User-Agent" (req_headers r) =
     Some "Open WebUI (https://github.com/open-webui/open-webui) FireCrawl Loader"
  /\ match req_method r with
     | POST => req_timeout r = Some 30%Z /\ exists payload, req_json r = Some (JDict payload)
     | GET => req_timeout r = None /\ req_json r = None
     end.

(** What an event of a loader's run must look like: a well-formed request, or
    a pause of [poll_interval]. *)
Definition well_formed_event (self : FireCrawlLoader) (ev : io_event) : Prop :=
  match ev with
  | Sent r => well_formed_request self r
  | Slept seconds => seconds = poll_interval
  end.

(** ** Worlds after a step *)

(** The world [w] with [records] added to its log. *)
Definition logged (w : world) (records : list log_record) : world :=
  World (replies w) (clock w) (trace w) (log w ++ records).

(** The world [w] once the request [r] is sent and the first reply taken. *)
Definition answered (w : world) (r : request) : world :=
  World (tl (replies w)) (clock w) (trace w ++ [Sent r]) (log w).

(** The record a handler [except ...: log.error(...); raise] writes for [e]. *)
Definition handler_record (http_prefix other_prefix : fstring) (e : exn) : log_record :=
  Log ERROR (if is_http_error e then http_prefix ++ http_error_detail e
             else other_prefix ++ exn_msg e).

(** The handler records of [_scrape_url], [_poll_crawl_status_sync] and
    [_crawl_url]. *)
Definition scrape_handler_record (url : string) (e : exn) : log_record :=
  handler_record [Lit "HTTP error scraping "; Lit url; Lit ": "]
                 [Lit "Error scraping "; Lit url; Lit ": "] e.

Definition poll_handler_record (firecrawl_job_id : json) (original_url : string) (e : exn)
  : log_record :=
  handler_record
    [Lit "HTTP error polling status for FireCrawl job "; fmt firecrawl_job_id;
     Lit " (URL: "; Lit original_url; Lit "): "]
    [Lit "Unexpected error polling status for FireCrawl job "; fmt firecrawl_job_id;
     Lit " (URL: "; Lit original_url; Lit "): "] e.

Definition crawl_handler_record (url : string) (e : exn) : log_record :=
  handler_record [Lit "HTTP error submitting crawl job for "; Lit url; Lit ": "]
                 [Lit "Error submitting crawl job for "; Lit url; Lit ": "] e.

(** The first record [_scrape_url] writes. *)
Definition scraping_record (self : FireCrawlLoader) (url : string) : log_record :=
  Log DEBUG [Lit "Scraping "; Lit url; Lit " with options: ";
             Str (build_payload url (scrape_options self))].

(** ** Service-reported metadata *)

(** The metadata the service reports for a page: [data["metadata"]] when it is
    there and a [dict], no field otherwise. *)
Definition service_metadata (data : json) : list (string * json) :=
  match lookup "metadata" (dict_items data) with
  | Some (JDict firecrawl_metadata) => firecrawl_metadata
  | _ => []
  end.

(** The keys [_collect_results_sync] gives every document before it looks at
    the service-reported metadata. *)
Definition crawl_base_keys : list string :=
  ["source"; "title"; "description"; "url"; "firecrawl_mode"; "job_id"; "original_url"].

(** ** Documents of a crawl job *)






(** ** Polling *)

Definition status_of (status_data : list (string * json)) : json :=
  match lookup "status" status_data with
  | Some v => v
  | None => JNull
  end.

(** A reading of the clock that is not beyond the deadline of a job polled
    since [start]. *)
Definition in_time (start now : float) : bool :=
  negb (PrimFloat.ltb max_wait_time_float (PrimFloat.sub now start)).

(** A status response that makes [_poll_crawl_status_sync] wait and ask
    again: a JSON object, received with a status code outside 400..599, whose
    ["status"] is none of "completed", "failed" and "error" and whose
    ["completed"] and ["total"] give a progress that can be computed. *)
Definition in_progress (r : Response) : bool :=
  resp_ok r
  && match resp_json r with
     | inr (JDict status_data) =>
         negb (eq_str (status_of status_data) "completed")
         && negb (eq_str (status_of status_data) "failed"
                  || eq_str (status_of status_data) "error")
         && match progress_check
                    (match lookup "completed" status_data with
                     | Some v => v
                     | None => JInt 0
                     end)
                    (match lookup "total" status_data with
                     | Some v => v
                     | None => JInt 0
                     end) with
            | Ok _ => true
            | _ => false
            end
     | _ => false
     end.

(** What polling [status_url] does after [n] responses that made it wait:
    [n] times a request and a pause, then one more request. *)
Definition polling_trace (self : FireCrawlLoader) (status_url : string) (n : nat)
  : list io_event :=
  List.concat (List.repeat [Sent (status_request self status_url); Slept poll_interval] n)
  ++ [Sent (status_request self status_url)].

(** ** Submitting a crawl job *)

(** The two records [_crawl_url] writes before it submits the job. *)
Definition submitting_records (self : FireCrawlLoader) (url : string) : list log_record :=
  [Log INFO [Lit "Submitting FireCrawl crawl job for "; Lit url];
   Log DEBUG [Lit "Crawl payload: "; Str (build_payload url (crawl_options self))]].

(** The job identifier and the status URL of the answer to a submission. *)
Definition job_id_of (result : list (string * json)) : json :=
  match lookup "id" result with
  | Some v => v
  | None => JNull
  end.

Definition status_url_of (result : list (string * json)) : json :=
  match lookup "url" result with
  | Some v => v
  | None => JNull
  end.

(** ** More sample runs *)

(** A loader that scrapes one page through the public service. *)
Definition sample_scraper : FireCrawlLoader :=
  sample_loader ["https://example.com"] default_api_url SCRAPE.

Definition sample_scrape_endpoint : string := "https://api.firecrawl.dev/v1/scrape".

(** The body of a scrape the service refuses. *)
Definition refused_scrape : list (string * json) :=
  [("success", JBool false); ("error", JStr "blocked")].

(** What the service reports about a page it scraped. *)
Definition sample_page_data : json :=
  JDict [("markdown", JStr "# Hello");
         ("metadata",
          JDict [("title", JStr "Hello");
                 ("language", JStr "en");
                 ("keywords", JList [JStr "a"; JStr "b"]);
                 ("ogImage", JNull)])].

(** The body of a scrape that succeeded. *)
Definition sample_scraped_page : json :=
  JDict [("success", JBool true); ("data", sample_page_data)].

(** A page of a crawl whose metadata has a field named like a key of the
    document. *)
Definition sample_crawled_page : json :=
  JDict [("markdown", JStr "# Hello");
         ("sourceURL", JStr "https://example.com/hello");
         ("metadata",
          JDict [("title", JStr "Hello");
                 ("language", JStr "en");
                 ("url", JStr "https://example.com/other");
                 ("ogImage", JNull)])].

(** A loader that crawls one site through a service of its own, reached over
    http. *)
Definition sample_crawler : FireCrawlLoader :=
  sample_loader ["https://example.com"] "http://localhost:3002" CRAWL.

Definition sample_crawl_endpoint : string := "http://localhost:3002/v1/crawl".
Definition sample_status_url : string := "http://localhost:3002/v1/crawl/job1".

(** Status responses: a job under way, a job done, a job that failed. *)
Definition job_under_way : Response :=
  ok_response (JDict [("status", JStr "scraping"); ("completed", JInt 1); ("total", JInt 3)]).


Definition job_failed : list (string * json) :=
  [("status", JStr "failed"); ("message", JStr "out of credits")].

(** Answers to a submission: one without a job, one with a job and a status
    URL, one whose status URL is a number. *)
Definition submission_refused : list (string * json) :=
  [("success", JBool false); ("message", JStr "limit reached")].


Definition submission_odd : list (string * json) :=
  [("success", JBool true); ("id", JStr "job1"); ("url", JInt 7)].




(** * Properties *)

(** ** Reasoning about computations *)

Lemma returns_ret {A} (P : A -> Prop) (a : A) : P a -> returns P (ret a).
Proof. intros H w a' w' E. inversion E; subst; exact H. Qed.

Lemma returns_raise {A} (P : A -> Prop) (e : exn) : returns P (raise e).
Proof. intros w a w' E. discriminate E. Qed.

Lemma returns_bind {A B} (Q : A -> Prop) (P : B -> Prop) (m : M A) (k : A -> M B) :
  returns Q m -> (forall a, Q a -> returns P (k a)) -> returns P (bind m k).
Proof.
  intros Hm Hk w b w' E. unfold bind in E.
  destruct (m w) as [[a | e |] w1] eqn:Em; try discriminate E.
  eapply Hk; [eapply Hm; exact Em | exact E].
Qed.

Lemma returns_then {A B} (P : B -> Prop) (m : M A) (k : A -> M B) :
  (forall a, returns P (k a)) -> returns P (bind m k).
Proof.
  intros Hk. apply returns_bind with (Q := fun _ => True).
  - intros w a w' _. exact I.
  - intros a _. apply Hk.
Qed.

Lemma returns_try_except {A} (P : A -> Prop) (body : M A) (handler : exn -> M unit) :
  returns P body -> returns P (try_except body handler).
Proof.
  intros Hb w a w' E. unfold try_except in E.
  destruct (body w) as [[a1 | e |] w1] eqn:Eb.
  - inversion E; subst. eapply Hb; exact Eb.
  - destruct (handler e w1) as [[u | e' |] w2]; discriminate E.
  - discriminate E.
Qed.

Lemma returns_lift {A} (P : A -> Prop) (r : result A) :
  (forall a, r = Ok a -> P a) -> returns P (lift r).
Proof. intros H w a w' E. unfold lift in E. inversion E; subst. apply H. reflexivity. Qed.

Lemma returns_outside {A} (P : A -> Prop) : returns P (lift Outside).
Proof. intros w a w' E. discriminate E. Qed.

Lemma returns_weaken {A} (P Q : A -> Prop) (m : M A) :
  (forall a, P a -> Q a) -> returns P m -> returns Q m.
Proof. intros H Hm w a w' E. apply H. eapply Hm. exact E. Qed.

(** Walks through a computation up to the places where it returns. *)
Ltac returns_step :=
  first
    [ apply returns_raise
    | apply returns_outside
    | apply returns_try_except
    | match goal with
      | |- returns _ (if ?b then _ else _) => destruct b eqn:?
      | |- returns _ (bind _ _) => apply returns_then; intros ?
      end ].

(** ** Unknown modes *)

Lemma generate_unknown_mode (per_url : string -> M (list Document)) (record : string -> log_record) :
  (forall u w, per_url u w =
               (Ok [], World (replies w) (clock w) (trace w) (log w ++ [record u]))) ->
  forall us w,
    generate per_url us w =
    ([], Ok tt, World (replies w) (clock w) (trace w) (log w ++ map record us)).
Proof.
  intros Hper us. induction us as [| u us IH]; intros w; simpl.
  - rewrite app_nil_r. destruct w; reflexivity.
  - rewrite Hper, IH. simpl. rewrite <- app_assoc. reflexivity.
Qed.

(** C8. Under a mode that is neither SCRAPE nor CRAWL both entry points yield
    no document and end without an exception; for each URL, in order, they
    write one ERROR record naming the mode and the URL, and they leave the
    rest of the world (replies, clock, requests sent) as it was. *)
Theorem unknown_mode_yields_nothing (self : FireCrawlLoader) (name : string) (w : world) :
  mode self = UNKNOWN name ->
  lazy_load self w =
    ([], Ok tt,
     World (replies w) (clock w) (trace w)
       (log w ++ map (unknown_mode_record "Unknown FireCrawl mode: " (mode self)) (urls self)))
  /\ alazy_load self w =
    ([], Ok tt,
     World (replies w) (clock w) (trace w)
       (log w ++ map (unknown_mode_record "Async loading: Unknown FireCrawl mode: " (mode self))
                     (urls self))).
Proof.
  intros Hmode. split.
  - unfold lazy_load. apply generate_unknown_mode.
    intros u w0. unfold docs_for_url. rewrite Hmode. reflexivity.
  - unfold alazy_load. apply generate_unknown_mode.
    intros u w0. unfold adocs_for_url. rewrite Hmode. reflexivity.
Qed.

Lemma unknown_mode_yields_nothing_example :
  let self := sample_loader ["https://a.example"; "https://b.example"] default_api_url
                (UNKNOWN "map") in
  let w := fresh_world [Answered (ok_response JNull)] [] in
  lazy_load self w =
    ([], Ok tt,
     World [Answered (ok_response JNull)] [] []
       [Log ERROR [Lit "Unknown FireCrawl mode: "; StrMode (UNKNOWN "map");
                   Lit " for URL: "; Lit "https://a.example"];
        Log ERROR [Lit "Unknown FireCrawl mode: "; StrMode (UNKNOWN "map");
                   Lit " for URL: "; Lit "https://b.example"]])
  /\ alazy_load self w =
    ([], Ok tt,
     World [Answered (ok_response JNull)] [] []
       [Log ERROR [Lit "Async loading: Unknown FireCrawl mode: "; StrMode (UNKNOWN "map");
                   Lit " for URL: "; Lit "https://a.example"];
        Log ERROR [Lit "Async loading: Unknown FireCrawl mode: "; StrMode (UNKNOWN "map");
                   Lit " for URL: "; Lit "https://b.example"]]).
Proof.
  exact (unknown_mode_yields_nothing
           (sample_loader ["https://a.example"; "https://b.example"] default_api_url
              (UNKNOWN "map"))
           "map" (fresh_world [Answered (ok_response JNull)] []) eq_refl).
Defined.

(** ** The two entry points do the same work *)

Lemma same_io_refl (w : world) : same_io w w.
Proof. repeat split. Qed.

Lemma log_equiv_ret {A} (a : A) : log_equiv (ret a) (ret a).
Proof. intros w1 w2 H. split; [reflexivity | exact H]. Qed.

Lemma log_equiv_raise {A} (e : exn) : log_equiv (@raise A e) (raise e).
Proof. intros w1 w2 H. split; [reflexivity | exact H]. Qed.

Lemma log_equiv_lift {A} (r : result A) : log_equiv (lift r) (lift r).
Proof. intros w1 w2 H. split; [reflexivity | exact H]. Qed.

Lemma log_equiv_log (l1 l2 : log_level) (m1 m2 : fstring) :
  log_equiv (log_at l1 m1) (log_at l2 m2).
Proof. intros w1 w2 H. split; [reflexivity | exact H]. Qed.

Lemma log_equiv_send (r : request) : log_equiv (send r) (send r).
Proof.
  intros w1 w2 (Hr & Hc & Ht). unfold send. rewrite Hr.
  destruct (replies w2) as [| [resp | why] rest] eqn:E; simpl;
    repeat split; simpl; congruence.
Qed.

Lemma log_equiv_time : log_equiv time_time time_time.
Proof.
  intros w1 w2 (Hr & Hc & Ht). unfold time_time. rewrite Hc.
  destruct (clock w2) as [| t rest] eqn:E; simpl; repeat split; simpl; congruence.
Qed.

Lemma log_equiv_sleep (n : Z) : log_equiv (time_sleep n) (time_sleep n).
Proof.
  intros w1 w2 (Hr & Hc & Ht). unfold time_sleep; simpl.
  repeat split; simpl; congruence.
Qed.

Lemma log_equiv_bind {A B} (m1 m2 : M A) (k1 k2 : A -> M B) :
  log_equiv m1 m2 -> (forall a, log_equiv (k1 a) (k2 a)) ->
  log_equiv (bind m1 k1) (bind m2 k2).
Proof.
  intros Hm Hk w1 w2 H. unfold bind.
  destruct (Hm w1 w2 H) as [Hres Hio].
  destruct (m1 w1) as [r1 w1'], (m2 w2) as [r2 w2']. simpl in Hres, Hio. subst r2.
  destruct r1 as [a | e |].
  - apply Hk. exact Hio.
  - split; [reflexivity | exact Hio].
  - split; [reflexivity | exact Hio].
Qed.

Lemma log_equiv_try {A} (b1 b2 : M A) (h1 h2 : exn -> M unit) :
  log_equiv b1 b2 -> (forall e, log_equiv (h1 e) (h2 e)) ->
  log_equiv (try_except b1 h1) (try_except b2 h2).
Proof.
  intros Hb Hh w1 w2 H. unfold try_except.
  destruct (Hb w1 w2 H) as [Hres Hio].
  destruct (b1 w1) as [r1 w1'], (b2 w2) as [r2 w2']. simpl in Hres, Hio. subst r2.
  destruct r1 as [a | e |]; try (split; [reflexivity | exact Hio]).
  destruct (Hh e w1' w2' Hio) as [Hres' Hio'].
  destruct (h1 e w1') as [r1 v1], (h2 e w2') as [r2 v2]. simpl in Hres', Hio'. subst r2.
  destruct r1; split; auto.
Qed.

Lemma log_equiv_handler (p1 p2 q1 q2 : fstring) (e : exn) :
  log_equiv (log_and_reraise p1 q1 e) (log_and_reraise p2 q2 e).
Proof. unfold log_and_reraise. destruct (is_http_error e); apply log_equiv_log. Qed.

Lemma log_equiv_raise_for_status (r : Response) :
  log_equiv (raise_for_status r) (raise_for_status r).
Proof.
  unfold raise_for_status.
  repeat match goal with
         | |- log_equiv (if ?b then _ else _) _ => destruct b
         end; first [apply log_equiv_raise | apply log_equiv_ret].
Qed.

Lemma log_equiv_response_json (r : Response) :
  log_equiv (response_json r) (response_json r).
Proof.
  unfold response_json.
  destruct (resp_json r); [apply log_equiv_raise | apply log_equiv_ret].
Qed.

(** Takes apart a goal [log_equiv m m] along the structure of [m]. *)
Ltac log_equiv_step :=
  first
    [ apply log_equiv_ret
    | apply log_equiv_raise
    | apply log_equiv_lift
    | apply log_equiv_log
    | apply log_equiv_send
    | apply log_equiv_time
    | apply log_equiv_sleep
    | apply log_equiv_handler
    | apply log_equiv_raise_for_status
    | apply log_equiv_response_json
    | apply log_equiv_bind; [| intros ?]
    | apply log_equiv_try; [| intros ?]
    | match goal with
      | |- log_equiv (if ?b then _ else _) (if ?b then _ else _) => destruct b
      end ].

Lemma scrape_log_equiv (self : FireCrawlLoader) (url : string) :
  log_equiv (_scrape_url self url) (_scrape_url self url).
Proof. unfold _scrape_url, requests_post. repeat log_equiv_step. Qed.

Lemma collect_pages_log_equiv (job : json) (url : string) (pages : list json) :
  forall docs, log_equiv (collect_pages job url pages docs) (collect_pages job url pages docs).
Proof.
  induction pages as [| item rest IH]; intros docs; simpl.
  - apply log_equiv_ret.
  - repeat log_equiv_step; apply IH.
Qed.

Lemma collect_results_log_equiv (self : FireCrawlLoader) (job data : json) (url : string) :
  log_equiv (_collect_results_sync self job data url) (_collect_results_sync self job data url).
Proof.
  unfold _collect_results_sync.
  repeat first [apply collect_pages_log_equiv | log_equiv_step].
Qed.

Lemma poll_loop_log_equiv (self : FireCrawlLoader) (job : json) (status_url url : string)
    (start : float) (turns : nat) :
  log_equiv (poll_loop turns self job status_url url start)
            (poll_loop turns self job status_url url start).
Proof.
  induction turns as [| turns IH]; simpl.
  - apply log_equiv_lift.
  - unfold requests_get.
    repeat first [apply collect_results_log_equiv | apply IH | log_equiv_step].
Qed.

Lemma poll_log_equiv (self : FireCrawlLoader) (job : json) (status_url url : string) :
  log_equiv (_poll_crawl_status_sync self job status_url url)
            (_poll_crawl_status_sync self job status_url url).
Proof.
  unfold _poll_crawl_status_sync.
  repeat log_equiv_step.
  intros w1 w2 H. destruct H as (Hr & Hc & Ht). rewrite Hc.
  apply poll_loop_log_equiv. repeat split; assumption.
Qed.

Lemma crawl_log_equiv (self : FireCrawlLoader) (url : string) :
  log_equiv (_crawl_url self url) (_crawl_url self url).
Proof.
  unfold _crawl_url, requests_post.
  repeat first [apply poll_log_equiv | log_equiv_step].
Qed.

Lemma per_url_log_equiv (self : FireCrawlLoader) (url_item : string) :
  log_equiv (adocs_for_url self url_item) (docs_for_url self url_item).
Proof.
  unfold adocs_for_url, docs_for_url. destruct (mode self).
  - apply log_equiv_bind; [apply log_equiv_log | intros _; apply scrape_log_equiv].
  - apply log_equiv_bind; [apply log_equiv_log | intros _; apply crawl_log_equiv].
  - apply log_equiv_bind; [apply log_equiv_log | intros _; apply log_equiv_ret].
Qed.

Lemma generate_log_equiv (per1 per2 : string -> M (list Document)) :
  (forall u, log_equiv (per1 u) (per2 u)) ->
  forall us w1 w2, same_io w1 w2 ->
    fst (generate per1 us w1) = fst (generate per2 us w2)
    /\ same_io (snd (generate per1 us w1)) (snd (generate per2 us w2)).
Proof.
  intros Hper us. induction us as [| u us IH]; intros w1 w2 H; simpl.
  - split; [reflexivity | exact H].
  - destruct (Hper u w1 w2 H) as [Hres Hio].
    destruct (per1 u w1) as [r1 w1'], (per2 u w2) as [r2 w2']. simpl in Hres, Hio. subst r2.
    destruct r1 as [docs | e |]; try (split; [reflexivity | exact Hio]).
    destruct (IH w1' w2' Hio) as [Hres' Hio'].
    destruct (generate per1 us w1') as [[d1 e1] v1], (generate per2 us w2') as [[d2 e2] v2].
    simpl in *. inversion Hres'; subst. split; [reflexivity | exact Hio'].
Qed.

(** C6. From any world, [alazy_load] yields the same documents as
    [lazy_load], in the same order, and ends the same way (exhausted, or with
    the same exception); it consumes the same replies and clock readings and
    sends the same requests.  Only the log records differ. *)
Theorem alazy_load_same_documents (self : FireCrawlLoader) (w : world) :
  fst (fst (alazy_load self w)) = fst (fst (lazy_load self w))
  /\ snd (fst (alazy_load self w)) = snd (fst (lazy_load self w))
  /\ same_io (snd (alazy_load self w)) (snd (lazy_load self w)).
Proof.
  unfold alazy_load, lazy_load.
  destruct (generate_log_equiv (adocs_for_url self) (docs_for_url self)
              (per_url_log_equiv self) (urls self) w w (same_io_refl w)) as [Hres Hio].
  rewrite Hres. repeat split; apply Hio.
Qed.

(** ** Order of the documents *)

Lemma lookup_setitem_other {V} (k k' : string) (v : V) (d : list (string * V)) :
  k <> k' -> lookup k' (setitem k v d) = lookup k' d.
Proof.
  intros Hne. induction d as [| [k0 v0] d IH]; simpl.
  - destruct (String.eqb_spec k k'); [contradiction | reflexivity].
  - destruct (String.eqb_spec k0 k) as [-> | Hk0]; simpl.
    + destruct (String.eqb_spec k k'); [contradiction | reflexivity].
    + destruct (String.eqb_spec k0 k'); [reflexivity | exact IH].
Qed.

Lemma lookup_setitem_same {V} (k : string) (v : V) (d : list (string * V)) :
  lookup k (setitem k v d) = Some v.
Proof.
  induction d as [| [k0 v0] d IH]; simpl.
  - rewrite String.eqb_refl. reflexivity.
  - destruct (String.eqb_spec k0 k) as [-> | Hk0]; simpl.
    + rewrite String.eqb_refl. reflexivity.
    + destruct (String.eqb_spec k0 k); [contradiction | exact IH].
Qed.

Lemma crawl_extra_metadata_source (fm : list (string * json)) :
  forall md, lookup "source" (crawl_extra_metadata fm md) = lookup "source" md.
Proof.
  unfold crawl_extra_metadata.
  induction fm as [| [k v] fm IH]; intros md; simpl.
  - reflexivity.
  - rewrite IH. destruct (has_key k md); simpl; [reflexivity |].
    apply lookup_setitem_other. discriminate.
Qed.

Lemma crawl_metadata_source (job : json) (url : string) (item src title description : json) :
  lookup "source" (crawl_metadata job url item src title description) = Some (Val src).
Proof.
  unfold crawl_metadata.
  destruct (lookup "metadata" (dict_items item)) as [[| | | | | | fm] |]; try reflexivity.
  rewrite crawl_extra_metadata_source. reflexivity.
Qed.

Lemma collect_pages_in_order (job : json) (url : string) (pages : list json) :
  forall acc w docs w',
    collect_pages job url pages acc w = (Ok docs, w') ->
    exists new, docs = acc ++ new /\ in_page_order url pages new.
Proof.
  unfold in_page_order.
  induction pages as [| item rest IH]; intros acc w docs w' E; simpl in E.
  - inversion E; subst. exists []. split; [symmetry; apply app_nil_r | reflexivity].
  - destruct item as [| b | n | f | s | l | d]; try discriminate E.
    unfold bind, lift in E. simpl in E.
    change (match lookup "markdown" d with
            | Some x => x
            | None => match lookup "content" d with
                      | Some x => x
                      | None => JStr ""
                      end
            end) with (page_content_of (JDict d)) in E.
    change (match lookup "sourceURL" d with
            | Some x => x
            | None => JStr url
            end) with (page_source_of url (JDict d)) in E.
    simpl filter.
    destruct (truthy (page_content_of (JDict d))) eqn:Hc; simpl in E.
    + destruct (py_get _ "title" _) as [title | e |]; try discriminate E.
      destruct (py_get _ "description" _) as [description | e |]; try discriminate E.
      apply IH in E. destruct E as (new & -> & Hnew).
      eexists (_ :: new). split; [rewrite <- app_assoc; reflexivity |].
      simpl. rewrite Hnew. f_equal. f_equal.
      apply crawl_metadata_source.
    + apply IH in E. exact E.
Qed.

Lemma collect_results_in_order (self : FireCrawlLoader) (job : json) (pages : list json)
    (url : string) (w : world) (docs : list Document) (w' : world) :
  _collect_results_sync self job (JList pages) url w = (Ok docs, w') ->
  in_page_order url pages docs.
Proof.
  intros E. unfold _collect_results_sync, bind, lift, log_at, ret in E. simpl in E.
  destruct pages as [| item rest].
  - simpl in E. inversion E; subst. reflexivity.
  - change (negb true) with false in E. cbv beta iota in E.
    match type of E with
    | context [collect_pages ?j ?u ?p ?a ?v] =>
        destruct (collect_pages j u p a v) as [[ds | e |] w1] eqn:Ec
    end; inversion E; subst.
    apply collect_pages_in_order in Ec. destruct Ec as (new & -> & Hnew). exact Hnew.
Qed.

Lemma generate_app (per_url : string -> M (list Document)) (us1 us2 : list string) :
  forall w,
    generate per_url (us1 ++ us2) w =
    match generate per_url us1 w with
    | (docs1, Ok _, w1) =>
        let '(docs2, ending, w2) := generate per_url us2 w1 in
        (docs1 ++ docs2, ending, w2)
    | stopped => stopped
    end.
Proof.
  induction us1 as [| u us1 IH]; intros w; simpl.
  - destruct (generate per_url us2 w) as [[docs2 ending] w2]. reflexivity.
  - destruct (per_url u w) as [[docs | e |] w1]; try reflexivity.
    rewrite IH.
    destruct (generate per_url us1 w1) as [[docs1 [[] | e |]] w2]; try reflexivity.
    destruct (generate per_url us2 w2) as [[docs2 ending] w3].
    rewrite app_assoc. reflexivity.
Qed.

Lemma collect_results_returns_in_order (self : FireCrawlLoader) (job data : json)
    (url : string) :
  returns (fun docs => exists pages, in_page_order url pages docs)
          (_collect_results_sync self job data url).
Proof.
  unfold _collect_results_sync.
  apply returns_then; intros _.
  destruct (negb (truthy data)).
  - apply returns_then; intros _. apply returns_ret. exists []. reflexivity.
  - apply returns_bind with (Q := fun _ => True); [intros ? ? ? _; exact I |].
    intros items _.
    apply returns_bind with (Q := in_page_order url items).
    + intros w docs w' E. apply collect_pages_in_order in E.
      destruct E as (new & -> & Hnew). exact Hnew.
    + intros docs Hdocs. apply returns_then; intros _. apply returns_ret.
      exists items. exact Hdocs.
Qed.

Lemma poll_loop_returns (P : list Document -> Prop) (self : FireCrawlLoader) (job : json)
    (status_url url : string) (start : float) :
  (forall data, returns P (_collect_results_sync self job data url)) ->
  forall turns, returns P (poll_loop turns self job status_url url start).
Proof.
  intros Hcollect turns. induction turns as [| turns IH]; simpl.
  - apply returns_outside.
  - repeat first
      [ match goal with
        | |- returns _ (_collect_results_sync _ _ _ _) => apply Hcollect
        | |- returns _ (poll_loop _ _ _ _ _ _) => apply IH
        end
      | returns_step ].
Qed.

Lemma poll_returns (P : list Document -> Prop) (self : FireCrawlLoader) (job : json)
    (status_url url : string) :
  (forall data, returns P (_collect_results_sync self job data url)) ->
  returns P (_poll_crawl_status_sync self job status_url url).
Proof.
  intros Hcollect. unfold _poll_crawl_status_sync.
  repeat returns_step.
  intros w docs w' E. eapply poll_loop_returns; [exact Hcollect | exact E].
Qed.

Lemma crawl_returns (P : list Document -> Prop) (self : FireCrawlLoader) (url : string) :
  (forall job data, returns P (_collect_results_sync self job data url)) ->
  returns P (_crawl_url self url).
Proof.
  intros Hcollect. unfold _crawl_url.
  repeat first
    [ match goal with
      | |- returns _ (_poll_crawl_status_sync _ _ _ _) =>
          apply poll_returns; intros ?; apply Hcollect
      end
    | returns_step ].
Qed.

(** C7. The documents come in the order of the URLs: when the URLs are
    [first ++ later], [lazy_load] runs its loop over [first] to the end, and
    only then, from the world that leaves and unless an exception ended it,
    over [later]; the documents of [later] follow those of [first].  Within
    one crawl job the documents that [_collect_results_sync] returns are those
    of the pages with content, in the order of the pages in the service's
    reply; and whatever [_crawl_url] returns is such a list of documents. *)
Theorem documents_follow_urls_and_pages :
  (forall (self : FireCrawlLoader) (first later : list string) (w : world),
      urls self = first ++ later ->
      lazy_load self w =
      match generate (docs_for_url self) first w with
      | (docs1, Ok _, w1) =>
          let '(docs2, ending, w2) := generate (docs_for_url self) later w1 in
          (docs1 ++ docs2, ending, w2)
      | stopped => stopped
      end)
  /\ (forall (self : FireCrawlLoader) (job : json) (pages : list json) (url : string)
             (w : world) (docs : list Document) (w' : world),
         _collect_results_sync self job (JList pages) url w = (Ok docs, w') ->
         in_page_order url pages docs)
  /\ (forall (self : FireCrawlLoader) (url : string),
         returns (fun docs => exists pages, in_page_order url pages docs)
                 (_crawl_url self url)).
Proof.
  split; [| split].
  - intros self first later w Hurls. unfold lazy_load. rewrite Hurls.
    apply generate_app.
  - exact collect_results_in_order.
  - intros self url. apply crawl_returns.
    intros job data. apply collect_results_returns_in_order.
Qed.

Lemma documents_follow_pages_example :
  in_page_order "https://example.com" sample_pages
    [{| page_content := JStr "A";
        metadata :=
          [("source", Val (JStr "https://example.com/a"));
           ("title", Val (JStr ""));
           ("description", Val (JStr ""));
           ("url", Val (JStr "https://example.com/a"));
           ("firecrawl_mode", Val (JStr "crawl"));
           ("job_id", Val (JStr "job1"));
           ("original_url", Val (JStr "https://example.com"))] |};
     {| page_content := JStr "C";
        metadata :=
          [("source", Val (JStr "https://example.com"));
           ("title", Val (JStr "Page C"));
           ("description", Val (JStr ""));
           ("url", Val (JStr "https://example.com"));
           ("firecrawl_mode", Val (JStr "crawl"));
           ("job_id", Val (JStr "job1"));
           ("original_url", Val (JStr "https://example.com"))] |}].
Proof.
  eapply (proj1 (proj2 documents_follow_urls_and_pages)
            (sample_loader ["https://example.com"] default_api_url CRAWL)
            (JStr "job1") sample_pages "https://example.com" (fresh_world [] [])).
  reflexivity.
Defined.

(** ** The endpoints *)

Section Endpoints.
Import PyStr.

Lemma lstrip_by_none (p : ascii -> bool) (s : string) :
  all_chars (fun c => negb (p c)) s = true -> lstrip_by p s = s.
Proof.
  destruct s as [| a s]; simpl; [reflexivity |].
  intros H. apply andb_prop in H. destruct H as [Ha _].
  destruct (p a); [discriminate Ha | reflexivity].
Qed.

Lemma rstrip_by_none (p : ascii -> bool) (s : string) :
  all_chars (fun c => negb (p c)) s = true -> rstrip_by p s = s.
Proof.
  induction s as [| a s IH]; simpl; [reflexivity |].
  intros H. apply andb_prop in H. destruct H as [Ha Hs].
  rewrite (IH Hs). destruct s; [| reflexivity].
  destruct (p a); [discriminate Ha | reflexivity].
Qed.

Lemma all_chars_impl (p q : ascii -> bool) (s : string) :
  (forall c, p c = true -> q c = true) -> all_chars p s = true -> all_chars q s = true.
Proof.
  intros Hpq. induction s as [| a s IH]; simpl; [reflexivity |].
  intros H. apply andb_prop in H. destruct H as [Ha Hs].
  rewrite (Hpq a Ha), (IH Hs). reflexivity.
Qed.

Lemma replace_char_none (c : ascii) (new s : string) :
  all_chars (fun a => negb (Ascii.eqb a c)) s = true ->
  replace (String c EmptyString) new s = s.
Proof.
  unfold replace.
  induction s as [| a s IH]; [reflexivity |].
  cbn [replace_at all_chars String.prefix].
  intros H. apply andb_prop in H. destruct H as [Ha Hs].
  destruct (Ascii.ascii_dec c a) as [-> | Hne].
  - rewrite Ascii.eqb_refl in Ha. discriminate Ha.
  - rewrite (IH Hs). reflexivity.
Qed.

Lemma scheme_char_facts (c : ascii) :
  is_scheme_char c = true ->
  contains c Url._WHATWG_C0_CONTROL_OR_SPACE = false
  /\ Ascii.eqb c "009" = false /\ Ascii.eqb c "013" = false /\ Ascii.eqb c "010" = false
  /\ is_scheme_char (lower_char c) = true.
Proof.
  destruct c as [[] [] [] [] [] [] [] []]; vm_compute; intros H;
    first [discriminate H | repeat split; reflexivity].
Qed.

Lemma lower_scheme_chars (s : string) :
  all_chars is_scheme_char s = true -> all_chars is_scheme_char (lower s) = true.
Proof.
  induction s as [| a s IH]; simpl; [reflexivity |].
  intros H. apply andb_prop in H. destruct H as [Ha Hs].
  rewrite (IH Hs). destruct (scheme_char_facts a Ha) as (_ & _ & _ & _ & ->). reflexivity.
Qed.

(** A default scheme made of scheme characters goes through the clean-up at
    the head of [urlsplit] unchanged. *)
Lemma scheme_cleanup_id (scheme : string) :
  all_chars is_scheme_char scheme = true ->
  fold_left (fun s b => replace b "" s) Url._UNSAFE_URL_BYTES_TO_REMOVE
    (strip Url._WHATWG_C0_CONTROL_OR_SPACE scheme) = scheme.
Proof.
  intros H.
  assert (Hc0 : all_chars (fun c => negb (contains c Url._WHATWG_C0_CONTROL_OR_SPACE))
                  scheme = true).
  { apply all_chars_impl with (p := is_scheme_char); [| exact H].
    intros c Hc. destruct (scheme_char_facts c Hc) as (-> & _). reflexivity. }
  assert (H9 : all_chars (fun a => negb (Ascii.eqb a "009")) scheme = true).
  { apply all_chars_impl with (p := is_scheme_char); [| exact H].
    intros c Hc. destruct (scheme_char_facts c Hc) as (_ & -> & _). reflexivity. }
  assert (H13 : all_chars (fun a => negb (Ascii.eqb a "013")) scheme = true).
  { apply all_chars_impl with (p := is_scheme_char); [| exact H].
    intros c Hc. destruct (scheme_char_facts c Hc) as (_ & _ & -> & _). reflexivity. }
  assert (H10 : all_chars (fun a => negb (Ascii.eqb a "010")) scheme = true).
  { apply all_chars_impl with (p := is_scheme_char); [| exact H].
    intros c Hc. destruct (scheme_char_facts c Hc) as (_ & _ & _ & -> & _). reflexivity. }
  unfold strip, lstrip, rstrip.
  rewrite (rstrip_by_none _ scheme Hc0), (lstrip_by_none _ scheme Hc0).
  unfold Url._UNSAFE_URL_BYTES_TO_REMOVE. cbn [fold_left].
  rewrite (replace_char_none "009" "" scheme H9), (replace_char_none "013" "" scheme H13),
    (replace_char_none "010" "" scheme H10).
  reflexivity.
Qed.

Lemma urlsplit_scheme_clean (url : string) (af : bool) (scheme netloc path query fragment : string) :
  Url.urlsplit url "" af = Ok (scheme, netloc, path, query, fragment) ->
  all_chars is_scheme_char scheme = true.
Proof.
  unfold Url.urlsplit.
  set (u := fold_left _ _ (lstrip _ url)).
  change (fold_left (fun s b => replace b "" s) Url._UNSAFE_URL_BYTES_TO_REMOVE
            (strip Url._WHATWG_C0_CONTROL_OR_SPACE "")) with "".
  match goal with
  | |- context [if ?c then (lower ?a, ?b) else _] => destruct c eqn:Hc
  end;
  match goal with
  | |- match ?r with Ok _ => _ | Raise _ => _ | Outside => _ end = _ -> _ =>
      destruct r as [[nl u0] | e |]; try discriminate
  end;
  match goal with
  | |- context [if ?c then split1 "#" ?x else _] =>
      destruct (if c then split1 "#" x else (x, "")) as [u1 fr]
  end;
  match goal with
  | |- context [if ?c then split1 "?" ?x else _] =>
      destruct (if c then split1 "?" x else (x, "")) as [u2 q]
  end;
  intros E; inversion E; subst.
  - apply andb_prop in Hc. destruct Hc as [_ Hc]. apply lower_scheme_chars. exact Hc.
  - reflexivity.
Qed.

Lemma urlparse_scheme_clean (url : string) (af : bool)
    (scheme netloc path params query fragment : string) :
  Url.urlparse url "" af = Ok (scheme, netloc, path, params, query, fragment) ->
  all_chars is_scheme_char scheme = true.
Proof.
  unfold Url.urlparse.
  destruct (Url.urlsplit url "" af) as [[[[[sc nl] u] q] fr] | e |] eqn:E; try discriminate.
  destruct (if mem sc Url.uses_params && contains ";" u then Url._splitparams u else (u, ""))
    as [u' pa].
  intros H. inversion H; subst. eapply urlsplit_scheme_clean. exact E.
Qed.

(** An absolute path with no scheme of its own takes the default scheme. *)
Lemma urlsplit_endpoint_path (path scheme : string) :
  all_chars is_scheme_char scheme = true ->
  path = "/v1/scrape" \/ path = "/v1/crawl" ->
  Url.urlsplit path scheme true = Ok (scheme, "", path, "", "").
Proof.
  intros Hs Hp. unfold Url.urlsplit.
  rewrite (scheme_cleanup_id scheme Hs).
  destruct Hp as [-> | ->]; vm_compute; reflexivity.
Qed.

Lemma urlparse_endpoint_path (path scheme : string) :
  all_chars is_scheme_char scheme = true ->
  path = "/v1/scrape" \/ path = "/v1/crawl" ->
  Url.urlparse path scheme true = Ok (scheme, "", path, "", "", "").
Proof.
  intros Hs Hp. unfold Url.urlparse.
  rewrite (urlsplit_endpoint_path path scheme Hs Hp).
  replace (contains ";" path) with false by (destruct Hp as [-> | ->]; reflexivity).
  rewrite andb_false_r. reflexivity.
Qed.

Lemma uses_relative_uses_netloc (scheme : string) :
  mem scheme Url.uses_relative = true -> mem scheme Url.uses_netloc = true.
Proof.
  unfold mem. intros H. apply existsb_exists in H. destruct H as (x & Hin & Heq).
  apply String.eqb_eq in Heq. subst x.
  simpl in Hin.
  repeat (destruct Hin as [<- | Hin]; [reflexivity |]). contradiction.
Qed.

(** Joining a base with one of the two endpoint paths keeps the scheme and
    the netloc of the base and nothing else of it. *)
Lemma urljoin_endpoint_path (base path : string)
    (scheme netloc bpath params query fragment : string) :
  path = "/v1/scrape" \/ path = "/v1/crawl" ->
  Url.urlparse base "" true = Ok (scheme, netloc, bpath, params, query, fragment) ->
  Url.urljoin base path =
  Ok (if mem scheme Url.uses_relative
      then Url.urlunsplit (scheme, netloc, path, "", "")
      else path).
Proof.
  intros Hp Hb. unfold Url.urljoin.
  destruct (base =? "") eqn:Hbase.
  - apply String.eqb_eq in Hbase. subst base.
    vm_compute in Hb. inversion Hb; subst.
    destruct Hp as [-> | ->]; reflexivity.
  - replace (path =? "") with false by (destruct Hp as [-> | ->]; reflexivity).
    rewrite Hb.
    rewrite (urlparse_endpoint_path path scheme (urlparse_scheme_clean _ _ _ _ _ _ _ _ Hb) Hp).
    rewrite String.eqb_refl. cbn [negb orb].
    destruct (mem scheme Url.uses_relative) eqn:Hrel; cbn [negb]; [| reflexivity].
    rewrite (uses_relative_uses_netloc scheme Hrel).
    change ("" =? "") with true. cbn [negb andb].
    replace (path =? "") with false by (destruct Hp as [-> | ->]; reflexivity).
    cbn [andb].
    destruct Hp as [-> | ->]; vm_compute; reflexivity.
Qed.

Lemma length_app (a b : string) :
  String.length (a ++ b)%string = String.length a + String.length b.
Proof. induction a as [| c a IH]; simpl; [reflexivity | rewrite IH; reflexivity]. Qed.

Lemma take_app (a b : string) : take (String.length a) (a ++ b)%string = a.
Proof. induction a as [| c a IH]; simpl; [destruct b; reflexivity | rewrite IH; reflexivity]. Qed.

Lemma drop_app (a b : string) : drop (String.length a) (a ++ b)%string = b.
Proof. induction a as [| c a IH]; simpl; [destruct b; reflexivity | exact IH]. Qed.

Lemma slice_index_app (a b : string) : slice_index (a ++ b)%string (len a) = String.length a.
Proof.
  unfold slice_index, len. rewrite length_app.
  destruct (Z.ltb_spec (Z.of_nat (String.length a)) 0); lia.
Qed.

Lemma upto_app (a b : string) : upto (a ++ b)%string (len a) = a.
Proof. unfold upto. rewrite slice_index_app. apply take_app. Qed.

Lemma from_app (a b : string) : from (a ++ b)%string (len a) = b.
Proof. unfold from. rewrite slice_index_app. apply drop_app. Qed.

Lemma prefix_empty (s : string) : String.prefix "" s = true.
Proof. destruct s; reflexivity. Qed.

Lemma replace_char_app (c : ascii) (a b : string) :
  replace (String c EmptyString) "" (a ++ b)%string =
  (replace (String c EmptyString) "" a ++ replace (String c EmptyString) "" b)%string.
Proof.
  unfold replace.
  induction a as [| x a IH]; [reflexivity |].
  cbn [append replace_at String.prefix String.length Nat.sub].
  rewrite !prefix_empty.
  destruct (Ascii.ascii_dec c x); cbn [append]; rewrite IH; reflexivity.
Qed.

Lemma find_lower_bound (c : ascii) (s : string) : (-1 <= find c s)%Z.
Proof.
  induction s as [| y s IH]; cbn; [lia |].
  destruct (Ascii.eqb y c); [lia |]. destruct (find c s <? 0)%Z; lia.
Qed.

Lemma find_app_none (c : ascii) (a b : string) :
  contains c a = false ->
  find c (a ++ b)%string = if (find c b <? 0)%Z then (-1)%Z else (find c b + len a)%Z.
Proof.
  unfold len.
  induction a as [| x a IH]; intros H.
  - cbn. pose proof (find_lower_bound c b).
    destruct (Z.ltb_spec (find c b) 0); lia.
  - cbn in H. apply orb_false_elim in H. destruct H as [Hx Ha].
    cbn [append find]. rewrite Hx, (IH Ha).
    destruct (find c b <? 0)%Z eqn:E; [reflexivity |].
    apply Z.ltb_ge in E.
    replace (find c b + Z.of_nat (String.length a) <? 0)%Z with false
      by (symmetry; apply Z.ltb_ge; lia).
    cbn [String.length]. lia.
Qed.

Lemma clean_url_app (a b : string) : clean_url (a ++ b)%string = (clean_url a ++ clean_url b)%string.
Proof.
  unfold clean_url, Url._UNSAFE_URL_BYTES_TO_REMOVE. cbn [fold_left].
  rewrite !replace_char_app. reflexivity.
Qed.

Lemma host_char_facts (c : ascii) :
  is_host_char c = true ->
  Ascii.eqb c "/" = false /\ Ascii.eqb c "?" = false /\ Ascii.eqb c "#" = false
  /\ Ascii.eqb c "[" = false /\ Ascii.eqb c "]" = false
  /\ Ascii.eqb c "009" = false /\ Ascii.eqb c "013" = false /\ Ascii.eqb c "010" = false.
Proof.
  destruct c as [[] [] [] [] [] [] [] []]; vm_compute; intros H;
    first [discriminate H | repeat split; reflexivity].
Qed.

Lemma contains_none (c : ascii) (s : string) :
  all_chars (fun a => negb (Ascii.eqb a c)) s = true -> contains c s = false.
Proof.
  induction s as [| a s IH]; cbn [contains all_chars]; [reflexivity |].
  intros H. apply andb_prop in H. destruct H as [Ha Hs].
  rewrite (IH Hs). destruct (Ascii.eqb a c); [discriminate Ha | reflexivity].
Qed.

Lemma contains_cases (c : ascii) (chars : string) :
  contains c chars = true -> In c (list_ascii_of_string chars).
Proof.
  induction chars as [| a s IH]; cbn [contains list_ascii_of_string]; [discriminate |].
  intros H. apply orb_prop in H. destruct H as [H | H].
  - left. apply Ascii.eqb_eq. exact H.
  - right. apply IH. exact H.
Qed.

Lemma host_without (host : string) (c : ascii) :
  all_chars is_host_char host = true ->
  contains c "/?#[]" = true \/ c = "009"%char \/ c = "013"%char \/ c = "010"%char ->
  all_chars (fun a => negb (Ascii.eqb a c)) host = true.
Proof.
  intros Hh Hc. apply all_chars_impl with (p := is_host_char); [| exact Hh].
  intros a Ha. destruct (host_char_facts a Ha) as (H1 & H2 & H3 & H4 & H5 & H6 & H7 & H8).
  destruct Hc as [Hc | [-> | [-> | ->]]]; [| rewrite ?H6, ?H7, ?H8; reflexivity ..].
  apply contains_cases in Hc. cbn [list_ascii_of_string In] in Hc.
  destruct Hc as [<- | [<- | [<- | [<- | [<- | []]]]]];
    rewrite ?H1, ?H2, ?H3, ?H4, ?H5; reflexivity.
Qed.

Lemma clean_url_host (host : string) :
  all_chars is_host_char host = true -> clean_url host = host.
Proof.
  intros Hh. unfold clean_url, Url._UNSAFE_URL_BYTES_TO_REMOVE. cbn [fold_left].
  rewrite (replace_char_none "009" "" host), (replace_char_none "013" "" host),
    (replace_char_none "010" "" host); try reflexivity;
    apply host_without; auto.
Qed.

Lemma after_host_cases (rest : string) :
  after_host rest = true ->
  rest = "" \/ exists c r, rest = String c r /\ (c = "/" \/ c = "?" \/ c = "#")%char.
Proof.
  destruct rest as [| c r]; [left; reflexivity |].
  cbn [after_host]. intros H. right. exists c, r. split; [reflexivity |].
  apply contains_cases in H. cbn [list_ascii_of_string In] in H.
  destruct H as [<- | [<- | [<- | []]]]; auto.
Qed.

Lemma after_host_clean (rest : string) :
  after_host rest = true -> after_host (clean_url rest) = true.
Proof.
  intros H. destruct (after_host_cases rest H) as [-> | (c & r & -> & Hc)]; [reflexivity |].
  change (String c r) with (String c "" ++ r)%string. rewrite clean_url_app.
  destruct Hc as [-> | [-> | ->]]; reflexivity.
Qed.

Lemma earliest_delimiter (L X a b c : Z) :
  (0 <= X <= L)%Z ->
  (a = -1 \/ X <= a)%Z -> (b = -1 \/ X <= b)%Z -> (c = -1 \/ X <= c)%Z ->
  (a = X \/ b = X \/ c = X \/ L = X)%Z ->
  (let d1 := if (a >=? 0)%Z then Z.min L a else L in
   let d2 := if (b >=? 0)%Z then Z.min d1 b else d1 in
   if (c >=? 0)%Z then Z.min d2 c else d2) = X.
Proof.
  intros HX Ha Hb Hc Hone. cbv zeta.
  rewrite !Z.geb_leb.
  destruct (Z.leb_spec 0 a), (Z.leb_spec 0 b), (Z.leb_spec 0 c); lia.
Qed.

Lemma find_first (c : ascii) (r : string) : find c (String c r) = 0%Z.
Proof. cbn [find]. rewrite Ascii.eqb_refl. reflexivity. Qed.

Lemma splitnetloc_host (host rest : string) :
  all_chars is_host_char host = true ->
  after_host rest = true ->
  Url._splitnetloc ("//" ++ host ++ rest)%string 2 = (host, rest).
Proof.
  intros Hh Hr. unfold Url._splitnetloc. cbn [fold_left].
  assert (Hn : slice_index ("//" ++ host ++ rest) 2 = 2%nat)
    by exact (slice_index_app "//" (host ++ rest)).
  assert (Hfind : forall c, contains c "/?#" = true ->
            find_from c ("//" ++ host ++ rest)%string 2 =
            if (find c rest <? 0)%Z then (-1)%Z else (find c rest + len host + 2)%Z).
  { intros c Hc. unfold find_from. cbv zeta. rewrite !Hn.
    change (drop 2 ("//" ++ host ++ rest)%string) with (host ++ rest)%string.
    rewrite find_app_none.
    - destruct (find c rest <? 0)%Z eqn:E; [reflexivity |].
      apply Z.ltb_ge in E. unfold len.
      replace (find c rest + Z.of_nat (String.length host) <? 0)%Z with false
        by (symmetry; apply Z.ltb_ge; lia).
      lia.
    - apply contains_none. apply host_without; [exact Hh |].
      left. apply contains_cases in Hc. cbn [list_ascii_of_string In] in Hc.
      destruct Hc as [<- | [<- | [<- | []]]]; reflexivity. }
  rewrite !Hfind by reflexivity.
  assert (Hlen : len ("//" ++ host ++ rest) = (2 + len host + len rest)%Z).
  { unfold len. change ("//" ++ host ++ rest)%string with (String "/" (String "/" (host ++ rest))).
    cbn [String.length]. rewrite length_app. lia. }
  rewrite Hlen.
  match goal with
  | |- (slice _ _ ?d, _) = _ => assert (Hd : d = (2 + len host)%Z)
  end.
  { pose proof (find_lower_bound "/" rest). pose proof (find_lower_bound "?" rest).
    pose proof (find_lower_bound "#" rest).
    assert (Hh0 : (0 <= len host)%Z) by (unfold len; lia).
    assert (Hr0 : (0 <= len rest)%Z) by (unfold len; lia).
    apply earliest_delimiter.
    - lia.
    - destruct (Z.ltb_spec (find "/" rest) 0); lia.
    - destruct (Z.ltb_spec (find "?" rest) 0); lia.
    - destruct (Z.ltb_spec (find "#" rest) 0); lia.
    - destruct (after_host_cases rest Hr) as [-> | (c & r & -> & Hc)].
      + right; right; right. cbn. lia.
      + destruct Hc as [-> | [-> | ->]]; rewrite find_first;
          change (0 <? 0)%Z with false; cbv iota; lia. }
  rewrite Hd. unfold slice, from.
  assert (Hi : slice_index ("//" ++ host ++ rest) (2 + len host) = (2 + String.length host)%nat).
  { change ("//" ++ host ++ rest)%string with (("//" ++ host) ++ rest)%string.
    replace (2 + len host)%Z with (len ("//" ++ host))
      by (unfold len; cbn [append String.length]; lia).
    rewrite slice_index_app. reflexivity. }
  rewrite Hi, Hn.
  replace (2 + String.length host - 2) with (String.length host) by lia.
  change (drop 2 ("//" ++ host ++ rest)%string) with (host ++ rest)%string.
  rewrite take_app.
  change (drop (2 + String.length host) ("//" ++ host ++ rest)%string)
    with (drop (String.length host) (host ++ rest)%string).
  rewrite drop_app. reflexivity.
Qed.

Lemma urlsplit_http_base (scheme host rest : string) :
  scheme = "http" \/ scheme = "https" ->
  all_chars is_host_char host = true ->
  after_host rest = true ->
  exists path query fragment,
    Url.urlsplit (scheme ++ "://" ++ host ++ rest)%string "" true =
    Ok (scheme, host, path, query, fragment).
Proof.
  intros Hs Hh Hr. unfold Url.urlsplit.
  assert (Hstrip : lstrip Url._WHATWG_C0_CONTROL_OR_SPACE (scheme ++ "://" ++ host ++ rest) =
                   (scheme ++ "://" ++ host ++ rest)%string)
    by (destruct Hs as [-> | ->]; reflexivity).
  rewrite Hstrip. fold (clean_url (scheme ++ "://" ++ host ++ rest)).
  rewrite !clean_url_app, (clean_url_host host Hh).
  replace (clean_url scheme) with scheme by (destruct Hs as [-> | ->]; reflexivity).
  change (clean_url "://") with "://".
  pose proof (after_host_clean rest Hr) as Hr'.
  set (r := clean_url rest) in *.
  change (fold_left (fun s b => replace b "" s) Url._UNSAFE_URL_BYTES_TO_REMOVE
            (strip Url._WHATWG_C0_CONTROL_OR_SPACE "")) with "".
  assert (Hfind : find ":" (scheme ++ "://" ++ host ++ r) = len scheme)
    by (destruct Hs as [-> | ->]; reflexivity).
  rewrite Hfind.
  rewrite (upto_app scheme ("://" ++ host ++ r)).
  assert (Hfrom : from (scheme ++ "://" ++ host ++ r) (len scheme + 1) = ("//" ++ host ++ r)%string).
  { replace (len scheme + 1)%Z with (len (scheme ++ ":")) by (destruct Hs as [-> | ->]; reflexivity).
    replace (scheme ++ "://" ++ host ++ r)%string with ((scheme ++ ":") ++ "//" ++ host ++ r)%string
      by (destruct Hs as [-> | ->]; reflexivity).
    apply from_app. }
  rewrite Hfrom.
  replace ((len scheme >? 0)%Z
           && match (scheme ++ "://" ++ host ++ r)%string with
              | "" => false
              | String c _ => isascii c && isalpha c
              end
           && all_chars (fun c => contains c Url.scheme_chars) scheme) with true
    by (destruct Hs as [-> | ->]; reflexivity).
  replace (lower scheme) with scheme by (destruct Hs as [-> | ->]; reflexivity).
  assert (Hup : upto ("//" ++ host ++ r) 2 = "//") by exact (upto_app "//" (host ++ r)).
  rewrite Hup. change ("//" =? "//") with true. cbv iota.
  rewrite (splitnetloc_host host r Hh Hr').
  rewrite (contains_none "[" host), (contains_none "]" host)
    by (apply host_without; auto).
  cbn [andb orb negb].
  destruct (if contains "#" r then split1 "#" r else (r, "")) as [u1 fr].
  destruct (if contains "?" u1 then split1 "?" u1 else (u1, "")) as [u2 q].
  eauto.
Qed.

Lemma urlparse_http_base (scheme host rest : string) :
  scheme = "http" \/ scheme = "https" ->
  all_chars is_host_char host = true ->
  after_host rest = true ->
  exists path params query fragment,
    Url.urlparse (scheme ++ "://" ++ host ++ rest)%string "" true =
    Ok (scheme, host, path, params, query, fragment).
Proof.
  intros Hs Hh Hr. unfold Url.urlparse.
  destruct (urlsplit_http_base scheme host rest Hs Hh Hr) as (p & q & f & ->).
  destruct (if mem scheme Url.uses_params && contains ";" p then Url._splitparams p else (p, ""))
    as [p' pa].
  eauto.
Qed.

(** An endpoint of a base address [scheme://host...], for [http] and [https]:
    the base's scheme and host, then the endpoint's path. *)
Lemma urljoin_http_base (scheme host rest path : string) :
  scheme = "http" \/ scheme = "https" ->
  all_chars is_host_char host = true ->
  after_host rest = true ->
  path = "/v1/scrape" \/ path = "/v1/crawl" ->
  Url.urljoin (scheme ++ "://" ++ host ++ rest)%string path =
  Ok (scheme ++ "://" ++ host ++ path)%string.
Proof.
  intros Hs Hh Hr Hp.
  destruct (urlparse_http_base scheme host rest Hs Hh Hr) as (bp & pa & q & f & Hparse).
  rewrite (urljoin_endpoint_path _ path _ _ _ _ _ _ Hp Hparse).
  replace (mem scheme Url.uses_relative) with true by (destruct Hs as [-> | ->]; reflexivity).
  f_equal. unfold Url.urlunsplit.
  replace (mem scheme Url.uses_netloc) with true by (destruct Hs as [-> | ->]; reflexivity).
  replace (scheme =? "") with false by (destruct Hs as [-> | ->]; reflexivity).
  replace (upto path 2 =? "//") with false by (destruct Hp as [-> | ->]; reflexivity).
  replace (path =? "") with false by (destruct Hp as [-> | ->]; reflexivity).
  replace (upto path 1 =? "/") with true by (destruct Hp as [-> | ->]; reflexivity).
  cbn [negb andb orb]. rewrite orb_true_r. reflexivity.
Qed.

End Endpoints.

(** ** Computations that only log *)

Lemma same_io_trans (w1 w2 w3 : world) : same_io w1 w2 -> same_io w2 w3 -> same_io w1 w3.
Proof. intros (A1 & A2 & A3) (B1 & B2 & B3). repeat split; congruence. Qed.

Lemma quiet_ret {A} (a : A) : quiet (ret a).
Proof. intros w. apply same_io_refl. Qed.

Lemma quiet_raise {A} (e : exn) : quiet (@raise A e).
Proof. intros w. apply same_io_refl. Qed.

Lemma quiet_lift {A} (r : result A) : quiet (lift r).
Proof. intros w. apply same_io_refl. Qed.

Lemma quiet_log (l : log_level) (msg : fstring) : quiet (log_at l msg).
Proof. intros w. repeat split. Qed.

Lemma quiet_bind {A B} (m : M A) (k : A -> M B) :
  quiet m -> (forall a, quiet (k a)) -> quiet (bind m k).
Proof.
  intros Hm Hk w. unfold bind. specialize (Hm w).
  destruct (m w) as [[a | e |] w1]; simpl in *; try exact Hm.
  eapply same_io_trans; [exact Hm | apply Hk].
Qed.

Lemma quiet_try {A} (body : M A) (handler : exn -> M unit) :
  quiet body -> (forall e, quiet (handler e)) -> quiet (try_except body handler).
Proof.
  intros Hb Hh w. unfold try_except. specialize (Hb w).
  destruct (body w) as [[a | e |] w1]; simpl in *; try exact Hb.
  specialize (Hh e w1).
  destruct (handler e w1) as [[u | e' |] w2]; simpl in *;
    eapply same_io_trans; eauto.
Qed.

Lemma quiet_handler (p q : fstring) (e : exn) : quiet (log_and_reraise p q e).
Proof. unfold log_and_reraise. destruct (is_http_error e); apply quiet_log. Qed.

Lemma quiet_raise_for_status (r : Response) : quiet (raise_for_status r).
Proof.
  unfold raise_for_status.
  repeat match goal with
         | |- quiet (if ?b then _ else _) => destruct b
         end; first [apply quiet_raise | apply quiet_ret].
Qed.

Lemma quiet_response_json (r : Response) : quiet (response_json r).
Proof. unfold response_json. destruct (resp_json r); [apply quiet_raise | apply quiet_ret]. Qed.

(** Takes apart a goal [quiet m] along the structure of [m]. *)
Ltac quiet_step :=
  first
    [ apply quiet_ret
    | apply quiet_raise
    | apply quiet_lift
    | apply quiet_log
    | apply quiet_handler
    | apply quiet_raise_for_status
    | apply quiet_response_json
    | match goal with
      | |- quiet (if ?b then _ else _) => destruct b
      | |- quiet (bind _ _) => apply quiet_bind; [| intros ?]
      | |- quiet (try_except _ _) => apply quiet_try; [| intros ?]
      end ].

Lemma collect_pages_quiet (job : json) (url : string) (pages : list json) :
  forall docs, quiet (collect_pages job url pages docs).
Proof.
  induction pages as [| item rest IH]; intros docs; simpl.
  - apply quiet_ret.
  - repeat first [apply IH | quiet_step].
Qed.

Lemma collect_results_quiet (self : FireCrawlLoader) (job data : json) (url : string) :
  quiet (_collect_results_sync self job data url).
Proof.
  unfold _collect_results_sync.
  repeat first
    [ match goal with |- quiet (collect_pages _ _ _ _) => apply collect_pages_quiet end
    | quiet_step ].
Qed.

Lemma try_except_trace {A} (body : M A) (handler : exn -> M unit) (w : world) :
  (forall e, quiet (handler e)) ->
  same_io (snd (body w)) (snd (try_except body handler w)).
Proof.
  intros Hh. unfold try_except.
  destruct (body w) as [[a | e |] w1]; simpl; try apply same_io_refl.
  specialize (Hh e w1). destruct (handler e w1) as [[u | e' |] w2]; exact Hh.
Qed.

(** ** Running a computation step by step *)

Lemma bind_ret {A B} (a : A) (k : A -> M B) (w : world) : bind (ret a) k w = k a w.
Proof. reflexivity. Qed.

Lemma bind_lift {A B} (r : result A) (k : A -> M B) (w : world) :
  bind (lift r) k w =
  match r with
  | Ok a => k a w
  | Raise e => (Raise e, w)
  | Outside => (Outside, w)
  end.
Proof. unfold bind, lift. destruct r; reflexivity. Qed.

Lemma bind_log {B} (l : log_level) (msg : fstring) (k : unit -> M B) (w : world) :
  bind (log_at l msg) k w =
  k tt (World (replies w) (clock w) (trace w) (log w ++ [Log l msg])).
Proof. reflexivity. Qed.

Lemma bind_raise {A B} (e : exn) (k : A -> M B) (w : world) :
  bind (raise e) k w = (Raise e, w).
Proof. reflexivity. Qed.

(** A request followed by work that only logs. *)
Lemma send_then_quiet {A} (r : request) (k : Response -> M A) (w : world) :
  (forall resp, quiet (k resp)) ->
  let w' := snd (bind (send r) k w) in
  clock w' = clock w
  /\ match replies w with
     | [] => replies w' = [] /\ trace w' = trace w /\ fst (bind (send r) k w) = Outside
     | _ :: rest => replies w' = rest /\ trace w' = trace w ++ [Sent r]
     end.
Proof.
  intros Hk. unfold bind, send.
  destruct (replies w) as [| [resp | why] rest] eqn:Hr; simpl.
  - repeat split; assumption.
  - destruct (Hk resp (World rest (clock w) (trace w ++ [Sent r]) (log w))) as (H1 & H2 & H3).
    simpl in *. repeat split; congruence.
  - repeat split.
Qed.

Lemma scrape_io (self : FireCrawlLoader) (url : string) (w : world) :
  let w' := snd (_scrape_url self url w) in
  clock w' = clock w
  /\ match Url.urljoin (api_url self) "/v1/scrape", replies w with
     | Ok scrape_url, _ :: rest =>
         replies w' = rest /\ trace w' = trace w ++ [Sent (scrape_request self url scrape_url)]
     | _, _ => replies w' = replies w /\ trace w' = trace w
     end.
Proof.
  cbv zeta. unfold _scrape_url.
  match goal with
  | |- context [try_except ?b ?h w] =>
      destruct (try_except_trace b h w (quiet_handler _ _)) as (H1 & H2 & H3);
      rewrite <- H1, <- H2, <- H3; clear H1 H2 H3
  end.
  rewrite bind_lift.
  destruct (Url.urljoin (api_url self) "/v1/scrape") as [scrape_url | e |];
    try (cbn [snd]; repeat split; destruct (replies w); reflexivity).
  rewrite bind_log. unfold requests_post.
  match goal with
  | |- context [bind (send ?r) ?k ?w1] =>
      let H := fresh in
      assert (H : forall resp, quiet (k resp)) by (intros resp; repeat quiet_step);
      destruct (send_then_quiet r k w1 H) as (Hc & Hr); clear H
  end.
  cbn [replies trace clock] in Hc, Hr.
  split; [exact Hc |].
  destruct (replies w) as [| rep rest]; [| exact Hr].
  destruct Hr as (Hr1 & Hr2 & _). split; assumption.
Qed.

(** ** Taking a finished run apart *)

Lemma bind_ok {A B} (m : M A) (k : A -> M B) (w : world) (b : B) (w' : world) :
  bind m k w = (Ok b, w') -> exists a w1, m w = (Ok a, w1) /\ k a w1 = (Ok b, w').
Proof.
  unfold bind. destruct (m w) as [[a | e |] w1]; intros E; try discriminate E.
  exists a, w1. split; [reflexivity | exact E].
Qed.

Lemma lift_ok {A} (r : result A) (w : world) (a : A) (w' : world) :
  lift r w = (Ok a, w') -> r = Ok a /\ w' = w.
Proof. unfold lift. intros E. inversion E. split; reflexivity. Qed.

Lemma ret_ok {A} (x : A) (w : world) (a : A) (w' : world) :
  ret x w = (Ok a, w') -> a = x /\ w' = w.
Proof. unfold ret. intros E. inversion E. split; reflexivity. Qed.

Lemma log_ok (l : log_level) (msg : fstring) (w : world) (u : unit) (w' : world) :
  log_at l msg w = (Ok u, w') ->
  w' = World (replies w) (clock w) (trace w) (log w ++ [Log l msg]).
Proof. unfold log_at. intros E. inversion E. reflexivity. Qed.

Lemma send_ok (r : request) (w : world) (resp : Response) (w' : world) :
  send r w = (Ok resp, w') ->
  exists rest, replies w = Answered resp :: rest
               /\ w' = World rest (clock w) (trace w ++ [Sent r]) (log w).
Proof.
  unfold send. destruct (replies w) as [| [resp' | why] rest]; intros E; inversion E.
  exists rest. split; reflexivity.
Qed.

Lemma try_ok {A} (body : M A) (handler : exn -> M unit) (w : world) (a : A) (w' : world) :
  try_except body handler w = (Ok a, w') -> body w = (Ok a, w').
Proof.
  unfold try_except. destruct (body w) as [[a' | e |] w1]; intros E; try discriminate E.
  - exact E.
  - destruct (handler e w1) as [[u | e' |] w2]; discriminate E.
Qed.

Lemma raise_for_status_ok (r : Response) (w : world) (u : unit) (w' : world) :
  raise_for_status r w = (Ok u, w') -> resp_ok r = true /\ w' = w.
Proof.
  unfold raise_for_status, resp_ok.
  destruct ((400 <=? resp_status_code r) && (resp_status_code r <? 500))%Z eqn:E4;
    [intros E; discriminate E |].
  destruct ((500 <=? resp_status_code r) && (resp_status_code r <? 600))%Z eqn:E5;
    [intros E; discriminate E |].
  intros E. inversion E. split; [| reflexivity].
  destruct (400 <=? resp_status_code r)%Z eqn:L4, (resp_status_code r <? 600)%Z eqn:L6;
    try reflexivity.
  destruct (resp_status_code r <? 500)%Z eqn:L5; [discriminate E4 |].
  destruct (500 <=? resp_status_code r)%Z eqn:G5; [discriminate E5 |].
  lia.
Qed.

Lemma response_json_ok (r : Response) (w : world) (v : json) (w' : world) :
  response_json r w = (Ok v, w') -> resp_json r = inr v /\ w' = w.
Proof.
  unfold response_json. destruct (resp_json r) as [why | v']; intros E; inversion E.
  split; reflexivity.
Qed.

Lemma py_get_ok (v : json) (k : string) (default x : json) :
  py_get v k default = Ok x ->
  exists items, v = JDict items
                /\ x = match lookup k items with Some y => y | None => default end.
Proof.
  destruct v; intros E; try discriminate E. inversion E. eexists. split; reflexivity.
Qed.

Lemma py_strip_ok (v : json) (stripped : string) :
  py_strip v = Ok stripped -> exists s, v = JStr s /\ stripped = PyStr.strip_ws s.
Proof.
  destruct v; intros E; try discriminate E. inversion E. eexists. split; reflexivity.
Qed.

(** Takes the hypotheses about finished runs apart, down to the steps. *)
Ltac invert_run :=
  repeat match goal with
    | H : try_except _ _ _ = (Ok _, _) |- _ => apply try_ok in H
    | H : bind _ _ _ = (Ok _, _) |- _ =>
        apply bind_ok in H; destruct H as (? & ? & ? & H)
    | H : lift _ _ = (Ok _, _) |- _ => apply lift_ok in H; destruct H as [H ?]; subst
    | H : ret _ _ = (Ok _, _) |- _ => apply ret_ok in H; destruct H as [? ?]; subst
    | H : log_at _ _ _ = (Ok _, _) |- _ => apply log_ok in H; subst
    | H : raise _ _ = (Ok _, _) |- _ => discriminate H
    | H : raise_for_status _ _ = (Ok _, _) |- _ =>
        apply raise_for_status_ok in H; destruct H as [H ?]; subst
    | H : response_json _ _ = (Ok _, _) |- _ =>
        apply response_json_ok in H; destruct H as [H ?]; subst
    | H : requests_post _ _ _ _ _ = (Ok _, _) |- _ =>
        unfold requests_post in H; apply send_ok in H; destruct H as (? & H & ?); subst
    | H : requests_get _ _ _ = (Ok _, _) |- _ =>
        unfold requests_get in H; apply send_ok in H; destruct H as (? & H & ?); subst
    | H : py_get _ _ _ = Ok _ |- _ => apply py_get_ok in H; destruct H as (? & ? & ?); subst
    | H : py_strip _ = Ok _ |- _ => apply py_strip_ok in H; destruct H as (? & ? & ?); subst
    | H : (if ?b then _ else _) _ = (Ok _, _) |- _ => destruct b eqn:?
    | H : JDict _ = JDict _ |- _ => injection H as H; subst
    end.

Lemma scrape_ok_inv (self : FireCrawlLoader) (url : string) (w : world)
    (docs : list Document) (w' : world) :
  _scrape_url self url w = (Ok docs, w') ->
  exists scrape_url r rest body,
    Url.urljoin (api_url self) "/v1/scrape" = Ok scrape_url
    /\ replies w = Answered r :: rest
    /\ scrape_succeeded r body
    /\ let content := page_content_of (scraped_data body) in
       if blank content then docs = []
       else exists s, content = JStr s
                      /\ docs = [{| page_content := content;
                                    metadata := scrape_metadata url content
                                                  (scraped_data body) |}].
Proof.
  intros E. unfold _scrape_url in E. invert_run.
  all: cbn [replies] in *.
  all: match goal with
       | Hu : Url.urljoin _ _ = Ok ?u, Hr : replies _ = Answered ?r :: ?rest,
         Hj : resp_json ?r = inr ?b |- _ =>
           exists u, r, rest, b
       end.
  all: repeat match goal with
       | |- _ /\ _ => split
       | |- exists items, JDict ?x = JDict items => exists x; reflexivity
       end; try assumption.
  all: try match goal with H : true = false |- _ => discriminate H end.
  all: match goal with
       | Hd : JDict ?d = match lookup "data" ?b with Some _ => _ | None => _ end |- _ =>
           assert (Hdata : scraped_data (JDict b) = JDict d)
             by (unfold scraped_data; cbn [dict_items]; symmetry; exact Hd);
           assert (Hcontent : page_content_of (JDict d) =
                              match lookup "markdown" d with
                              | Some v => v
                              | None => match lookup "content" d with
                                        | Some v => v
                                        | None => JStr ""
                                        end
                              end) by reflexivity
       end.
  all: try (unfold scrape_succeeded; repeat split;
            [ assumption | assumption | eexists; reflexivity
            | cbn [dict_items]; apply negb_false_iff; assumption
            | rewrite Hdata; eexists; reflexivity ]).
  all: rewrite Hdata, Hcontent; unfold blank.
  all: match goal with
       | |- context [truthy ?c] =>
           let Ht := fresh "Ht" in
           destruct (truthy c) eqn:Ht;
           repeat match goal with
                  | H : context [truthy c] |- _ => rewrite Ht in H
                  end
       end; cbn [negb orb] in *; try discriminate; try reflexivity.
  all: repeat match goal with H : ?x = ?x |- _ => clear H end.
  all: try match goal with
       | H : _ = JStr ?s |- _ => rewrite H in *
       | H : JStr ?s = _ |- _ => rewrite <- H in *
       end.
  all: try match goal with
       | H : (_ =? "") = _ |- _ => rewrite H
       | H : _ = (_ =? "") |- _ => rewrite <- H
       end; try reflexivity.
  all: eexists; split; reflexivity.
Qed.

(** ** What a run sends *)

Lemma emits_quiet {A} (P : io_event -> Prop) (m : M A) : quiet m -> emits P m.
Proof.
  intros Hq w. exists []. destruct (Hq w) as (_ & _ & Ht).
  rewrite app_nil_r. split; [symmetry; exact Ht | constructor].
Qed.

Lemma emits_weaken {A} (P Q : io_event -> Prop) (m : M A) :
  (forall ev, P ev -> Q ev) -> emits P m -> emits Q m.
Proof.
  intros HPQ Hm w. destruct (Hm w) as (evs & Ht & Hall).
  exists evs. split; [exact Ht |]. eapply Forall_impl; eauto.
Qed.

Lemma emits_bind {A B} (P : io_event -> Prop) (m : M A) (k : A -> M B) :
  emits P m -> (forall a, emits P (k a)) -> emits P (bind m k).
Proof.
  intros Hm Hk w. unfold bind. destruct (Hm w) as (evs & Ht & Hall).
  destruct (m w) as [[a | e |] w1]; simpl in *; try (exists evs; split; assumption).
  destruct (Hk a w1) as (evs' & Ht' & Hall').
  exists (evs ++ evs'). split.
  - rewrite Ht', Ht, app_assoc. reflexivity.
  - apply Forall_app. split; assumption.
Qed.

Lemma emits_try {A} (P : io_event -> Prop) (body : M A) (handler : exn -> M unit) :
  emits P body -> (forall e, quiet (handler e)) -> emits P (try_except body handler).
Proof.
  intros Hb Hh w. destruct (Hb w) as (evs & Ht & Hall).
  exists evs. split; [| exact Hall].
  destruct (try_except_trace body handler w Hh) as (_ & _ & H3).
  rewrite <- H3. exact Ht.
Qed.

Lemma emits_send (P : io_event -> Prop) (r : request) : P (Sent r) -> emits P (send r).
Proof.
  intros HP w. unfold send.
  destruct (replies w) as [| [resp | why] rest]; simpl.
  - exists []. rewrite app_nil_r. split; [reflexivity | constructor].
  - exists [Sent r]. split; [reflexivity | repeat constructor; exact HP].
  - exists [Sent r]. split; [reflexivity | repeat constructor; exact HP].
Qed.

Lemma emits_time (P : io_event -> Prop) : emits P time_time.
Proof.
  intros w. unfold time_time. exists []. rewrite app_nil_r.
  destruct (clock w); simpl; split; first [reflexivity | constructor].
Qed.

Lemma emits_sleep (P : io_event -> Prop) (n : Z) : P (Slept n) -> emits P (time_sleep n).
Proof.
  intros HP w. exists [Slept n]. split; [reflexivity | repeat constructor; exact HP].
Qed.

(** Walks through a computation, leaving the requests and pauses to show. *)
Ltac emits_step :=
  first
    [ match goal with
      | |- emits _ (bind _ _) => apply emits_bind; [| intros ?]
      | |- emits _ (try_except _ _) => apply emits_try; [| intros ?; apply quiet_handler]
      | |- emits _ (if ?b then _ else _) => destruct b
      | |- emits _ (send _) => apply emits_send
      | |- emits _ (requests_post _ _ _ _) => unfold requests_post; apply emits_send
      | |- emits _ (requests_get _ _) => unfold requests_get; apply emits_send
      | |- emits _ time_time => apply emits_time
      | |- emits _ (time_sleep _) => apply emits_sleep
      | |- emits _ (_collect_results_sync _ _ _ _) =>
          apply emits_quiet; apply collect_results_quiet
      | |- emits _ (lift _) => apply emits_quiet; apply quiet_lift
      | |- emits _ (ret _) => apply emits_quiet; apply quiet_ret
      | |- emits _ (raise _) => apply emits_quiet; apply quiet_raise
      | |- emits _ (log_at _ _) => apply emits_quiet; apply quiet_log
      | |- emits _ (raise_for_status _) => apply emits_quiet; apply quiet_raise_for_status
      | |- emits _ (response_json _) => apply emits_quiet; apply quiet_response_json
      end ].

Lemma scrape_emits (self : FireCrawlLoader) (url : string) :
  emits (loader_event self) (_scrape_url self url).
Proof.
  unfold _scrape_url. repeat emits_step.
  left. eexists _, _. reflexivity.
Qed.

Lemma poll_loop_emits (self : FireCrawlLoader) (job : json) (status_url url : string)
    (start : float) (turns : nat) :
  emits (poll_event self status_url) (poll_loop turns self job status_url url start).
Proof.
  induction turns as [| turns IH]; simpl.
  - apply emits_quiet, quiet_lift.
  - repeat first
      [ match goal with |- emits _ (poll_loop _ _ _ _ _ _) => apply IH end
      | emits_step ].
    + left. reflexivity.
    + right. reflexivity.
Qed.

Lemma poll_emits (self : FireCrawlLoader) (job : json) (status_url url : string) :
  emits (poll_event self status_url) (_poll_crawl_status_sync self job status_url url).
Proof.
  unfold _poll_crawl_status_sync. repeat emits_step.
  intros w. apply poll_loop_emits.
Qed.

Lemma poll_event_loader_event (self : FireCrawlLoader) (status_url : string) (ev : io_event) :
  poll_event self status_url ev -> loader_event self ev.
Proof.
  intros [-> | ->]; [right; right; left; eexists; reflexivity | right; right; right; reflexivity].
Qed.

Lemma crawl_emits (self : FireCrawlLoader) (url : string) :
  emits (loader_event self) (_crawl_url self url).
Proof.
  unfold _crawl_url.
  repeat first
    [ match goal with
      | |- emits _ (_poll_crawl_status_sync _ _ _ _) =>
          eapply emits_weaken; [apply poll_event_loader_event | apply poll_emits]
      end
    | emits_step ].
  right; left. eexists _, _. reflexivity.
Qed.

Lemma loader_event_well_formed (self : FireCrawlLoader) (ev : io_event) :
  loader_event self ev -> well_formed_event self ev.
Proof.
  intros [(u & e & ->) | [(u & e & ->) | [(s & ->) | ->]]]; cbn;
    try reflexivity; unfold well_formed_request; cbn;
    repeat split; try reflexivity; unfold build_payload; eexists; reflexivity.
Qed.

Lemma generate_emits (P : io_event -> Prop) (per_url : string -> M (list Document)) :
  (forall u, emits P (per_url u)) ->
  forall us w, exists evs,
    trace (snd (generate per_url us w)) = trace w ++ evs /\ Forall P evs.
Proof.
  intros Hper us. induction us as [| u us IH]; intros w; simpl.
  - exists []. rewrite app_nil_r. split; [reflexivity | constructor].
  - destruct (Hper u w) as (evs & Ht & Hall).
    destruct (per_url u w) as [[docs | e |] w1]; simpl in *;
      try (exists evs; split; assumption).
    destruct (IH w1) as (evs' & Ht' & Hall').
    destruct (generate per_url us w1) as [[later ending] w2]. simpl in *.
    exists (evs ++ evs'). split.
    + rewrite Ht', Ht, app_assoc. reflexivity.
    + apply Forall_app. split; assumption.
Qed.

Lemma docs_for_url_emits (self : FireCrawlLoader) (u : string) :
  emits (loader_event self) (docs_for_url self u).
Proof.
  unfold docs_for_url. destruct (mode self).
  - apply emits_bind; [apply emits_quiet, quiet_log | intros _; apply scrape_emits].
  - apply emits_bind; [apply emits_quiet, quiet_log | intros _; apply crawl_emits].
  - apply emits_quiet. repeat quiet_step.
Qed.

Lemma adocs_for_url_emits (self : FireCrawlLoader) (u : string) :
  emits (loader_event self) (adocs_for_url self u).
Proof.
  unfold adocs_for_url. destruct (mode self).
  - apply emits_bind; [apply emits_quiet, quiet_log | intros _; apply scrape_emits].
  - apply emits_bind; [apply emits_quiet, quiet_log | intros _; apply crawl_emits].
  - apply emits_quiet. repeat quiet_step.
Qed.

(** X1. Every request either entry point sends carries the bearer credential and
    the loader's user agent; every POST has a JSON payload and a timeout of 30;
    every GET has no payload and no timeout; every pause lasts
    [poll_interval].  What was sent before the run stays as it was. *)
Theorem every_request_well_formed (self : FireCrawlLoader) (w : world) :
  (exists evs, trace (snd (lazy_load self w)) = trace w ++ evs
               /\ Forall (well_formed_event self) evs)
  /\ (exists evs, trace (snd (alazy_load self w)) = trace w ++ evs
                  /\ Forall (well_formed_event self) evs).
Proof.
  split.
  - destruct (generate_emits (loader_event self) (docs_for_url self)
                (docs_for_url_emits self) (urls self) w) as (evs & Ht & Hall).
    exists evs. split; [exact Ht |].
    eapply Forall_impl; [apply loader_event_well_formed | exact Hall].
  - destruct (generate_emits (loader_event self) (adocs_for_url self)
                (adocs_for_url_emits self) (urls self) w) as (evs & Ht & Hall).
    exists evs. split; [exact Ht |].
    eapply Forall_impl; [apply loader_event_well_formed | exact Hall].
Qed.

(** ** Running a request *)

Lemma bind_send {B} (r : request) (k : Response -> M B) (w : world) :
  bind (send r) k w =
  match replies w with
  | [] => (Outside, w)
  | Answered resp :: _ => k resp (answered w r)
  | Unanswered why :: _ => (Raise (Exn RequestException [Lit why]), answered w r)
  end.
Proof.
  unfold bind, send, answered. destruct (replies w) as [| [resp | why] rest]; reflexivity.
Qed.

Lemma bind_time {B} (k : float -> M B) (w : world) :
  bind time_time k w =
  match clock w with
  | [] => (Outside, w)
  | t :: rest => k t (World (replies w) rest (trace w) (log w))
  end.
Proof. unfold bind, time_time. destruct (clock w); reflexivity. Qed.

Lemma bind_sleep {B} (n : Z) (k : unit -> M B) (w : world) :
  bind (time_sleep n) k w =
  k tt (World (replies w) (clock w) (trace w ++ [Slept n]) (log w)).
Proof. reflexivity. Qed.

Lemma raise_for_status_passes (r : Response) :
  resp_ok r = true -> raise_for_status r = ret tt.
Proof.
  unfold resp_ok, raise_for_status.
  destruct (Z.leb_spec 400 (resp_status_code r)), (Z.ltb_spec (resp_status_code r) 600),
    (Z.ltb_spec (resp_status_code r) 500), (Z.leb_spec 500 (resp_status_code r));
    cbn [andb negb]; intros Hok; first [reflexivity | discriminate Hok | lia].
Qed.

Lemma raise_for_status_fails (r : Response) :
  resp_ok r = false ->
  exists msg, raise_for_status r = raise (Exn (HTTPError r) msg).
Proof.
  unfold resp_ok, raise_for_status.
  destruct (Z.leb_spec 400 (resp_status_code r)), (Z.ltb_spec (resp_status_code r) 600),
    (Z.ltb_spec (resp_status_code r) 500), (Z.leb_spec 500 (resp_status_code r));
    cbn [andb negb]; intros Hok;
    first [discriminate Hok | lia | eexists; reflexivity].
Qed.

Lemma try_except_raise {A} (body : M A) (p q : fstring) (w : world) (e : exn) (w1 : world) :
  body w = (Raise e, w1) ->
  try_except body (log_and_reraise p q) w = (Raise e, logged w1 [handler_record p q e]).
Proof.
  intros E. unfold try_except. rewrite E. unfold log_and_reraise, handler_record, logged.
  destruct (is_http_error e); reflexivity.
Qed.


(** One step of a run whose next operation is known. *)
Ltac run_step :=
  first
    [ rewrite bind_ret
    | rewrite bind_lift
    | rewrite bind_log
    | rewrite bind_raise
    | rewrite bind_send
    | rewrite bind_time
    | rewrite bind_sleep
    | progress cbn [replies clock trace log py_get negb andb orb]
    | progress unfold requests_post, requests_get
    | match goal with
      | H : replies ?w = _ |- context [replies ?w] => rewrite H
      | H : clock ?w = _ |- context [clock ?w] => rewrite H
      | H : resp_ok ?r = true |- context [raise_for_status ?r] =>
          rewrite (raise_for_status_passes r H)
      | H : resp_json ?r = _ |- context [response_json ?r] =>
          unfold response_json; rewrite H
      | H : Url.urljoin ?b ?p = _ |- context [Url.urljoin ?b ?p] => rewrite H
      end ].

(** Two descriptions of the same world. *)
Ltac same_world :=
  unfold logged, answered, scraping_record, scrape_request, crawl_request, status_request;
  cbn [replies clock trace log tl];
  repeat match goal with
         | H : replies _ = _ :: _ |- _ => rewrite H
         end;
  cbn [replies clock trace log tl app];
  rewrite <- ?app_assoc; cbn [app];
  reflexivity.

(** X3. When the service answers a scrape with a body whose ["success"] is
    missing or false, [_scrape_url] raises [Exception] with the message
    "FireCrawl scrape failed: " followed by the body's ["error"] (or "Unknown
    error during scrape."), after one request and three log records: the
    DEBUG record of the request, an ERROR record of the failure and the ERROR
    record of the handler. *)
Theorem scrape_service_failure (self : FireCrawlLoader) (url scrape_url : string) (w : world)
    (r : Response) (rest : list reply) (body : list (string * json)) :
  Url.urljoin (api_url self) "/v1/scrape" = Ok scrape_url ->
  replies w = Answered r :: rest ->
  resp_ok r = true ->
  resp_json r = inr (JDict body) ->
  truthy (match lookup "success" body with Some v => v | None => JBool false end) = false ->
  let error_message :=
    match lookup "error" body with Some v => v | None => JStr "Unknown error during scrape." end in
  let e := Exn Exception [Lit "FireCrawl scrape failed: "; fmt error_message] in
  _scrape_url self url w =
  (Raise e,
   logged (answered w (scrape_request self url scrape_url))
     [scraping_record self url;
      Log ERROR [Lit "FireCrawl scrape failed for "; Lit url; Lit ": "; fmt error_message];
      scrape_handler_record url e]).
Proof.
  intros Hu Hr Hok Hj Hs. cbv zeta. unfold _scrape_url.
  match goal with
  | |- try_except ?b _ w = (Raise ?e, _) =>
      assert (Hbody : b w =
                (Raise e,
                 logged (answered w (scrape_request self url scrape_url))
                   [scraping_record self url;
                    Log ERROR [Lit "FireCrawl scrape failed for "; Lit url; Lit ": ";
                               fmt (match lookup "error" body with
                                    | Some v => v
                                    | None => JStr "Unknown error during scrape."
                                    end)]]))
  end.
  { repeat run_step. rewrite Hs. repeat run_step.
    unfold raise. f_equal. same_world. }
  rewrite (try_except_raise _ _ _ _ _ _ Hbody). f_equal.
  unfold scrape_handler_record. same_world.
Qed.

(** X4. When the request of [_scrape_url] gets no response, a response with an
    error status (400 to 599) or a response whose body is not JSON,
    [_scrape_url] raises: [HTTPError] carrying the response for an error
    status, whatever its body, and the exception of [requests] otherwise.  One
    request was sent, and the handler's ERROR record is the last of the log;
    for an error status it shows the status code and the exception's message,
    never the text of the response. *)
Theorem scrape_transport_failure (self : FireCrawlLoader) (url scrape_url : string)
    (w : world) (rep : reply) (rest : list reply) :
  Url.urljoin (api_url self) "/v1/scrape" = Ok scrape_url ->
  replies w = rep :: rest ->
  match rep with
  | Answered r => resp_ok r = false \/ exists why, resp_json r = inl why
  | Unanswered _ => True
  end ->
  exists e,
    _scrape_url self url w =
    (Raise e,
     logged (answered w (scrape_request self url scrape_url))
       [scraping_record self url; scrape_handler_record url e])
    /\ match rep with
       | Answered r =>
           if resp_ok r then exn_class_of e = RequestException
           else exn_class_of e = HTTPError r
                /\ log_message (scrape_handler_record url e) =
                   [Lit "HTTP error scraping "; Lit url; Lit ": ";
                    Int (resp_status_code r); Lit " - "] ++ exn_msg e
       | Unanswered why => e = Exn RequestException [Lit why]
       end.
Proof.
  intros Hu Hr Hrep.
  assert (Hrun : forall e,
             (match rep with
              | Answered r =>
                  (resp_ok r = false /\ raise_for_status r = raise e)
                  \/ (resp_ok r = true /\ exists why, resp_json r = inl why
                                               /\ e = Exn RequestException [Lit why])
              | Unanswered why => e = Exn RequestException [Lit why]
              end) ->
             _scrape_url self url w =
             (Raise e,
              logged (answered w (scrape_request self url scrape_url))
                [scraping_record self url; scrape_handler_record url e])).
  { intros e He. unfold _scrape_url.
    match goal with
    | |- try_except ?b _ w = _ =>
        assert (Hbody : b w =
                  (Raise e, logged (answered w (scrape_request self url scrape_url))
                              [scraping_record self url]))
    end.
    { repeat run_step. destruct rep as [r | why].
      - destruct He as [(Hok & Hraise) | (Hok & why & Hj & ->)].
        + rewrite Hraise. repeat run_step. unfold raise. f_equal. same_world.
        + repeat run_step. unfold raise. f_equal. same_world.
      - subst e. f_equal. same_world. }
    rewrite (try_except_raise _ _ _ _ _ _ Hbody). f_equal.
    unfold scrape_handler_record. same_world. }
  destruct rep as [r | why].
  - destruct (resp_ok r) eqn:Hok.
    + destruct Hrep as [Hrep | (why & Hj)]; [discriminate Hrep |].
      exists (Exn RequestException [Lit why]). split; [| reflexivity].
      apply Hrun. right. split; [reflexivity |]. exists why. split; [exact Hj | reflexivity].
    + destruct (raise_for_status_fails r Hok) as (msg & Hraise).
      exists (Exn (HTTPError r) msg). split.
      * apply Hrun. left. split; [reflexivity | exact Hraise].
      * split; [reflexivity |].
        unfold scrape_handler_record, handler_record, http_error_detail. cbn.
        rewrite Hok. reflexivity.
  - exists (Exn RequestException [Lit why]). split; [| reflexivity].
    apply Hrun. reflexivity.
Qed.

(** X5. Whenever [_scrape_url] returns, it has sent exactly one request, to
    the scrape endpoint, and taken its reply, a response with no error status
    whose body has a true ["success"]; it has not read the clock.  It returns
    no document when the page content (the data's ["markdown"], else its
    ["content"], else the empty string) is a false value or white space only,
    and otherwise exactly one document, whose content is that string. *)
Theorem scrape_returns_the_page (self : FireCrawlLoader) (url : string) (w : world)
    (docs : list Document) (w' : world) :
  _scrape_url self url w = (Ok docs, w') ->
  exists scrape_url r body,
    Url.urljoin (api_url self) "/v1/scrape" = Ok scrape_url
    /\ replies w = Answered r :: replies w'
    /\ clock w' = clock w
    /\ trace w' = trace w ++ [Sent (scrape_request self url scrape_url)]
    /\ scrape_succeeded r body
    /\ let content := page_content_of (scraped_data body) in
       if blank content then docs = []
       else exists s,
           content = JStr s
           /\ PyStr.strip_ws s <> ""
           /\ docs = [{| page_content := JStr s;
                         metadata := scrape_metadata url (JStr s) (scraped_data body) |}].
Proof.
  intros E.
  destruct (scrape_ok_inv self url w docs w' E) as (u & r & rest & body & Hu & Hr & Hs & Hdocs).
  pose proof (scrape_io self url w) as Hio. cbv zeta in Hio.
  rewrite E, Hu, Hr in Hio. cbn [snd] in Hio. destruct Hio as (Hc & Hrest & Ht).
  exists u, r, body.
  refine (conj Hu (conj _ (conj Hc (conj Ht (conj Hs _))))).
  - rewrite Hrest. exact Hr.
  - cbv zeta in *. destruct (blank (page_content_of (scraped_data body))) eqn:Hb;
      [exact Hdocs |].
    destruct Hdocs as (s & Hcontent & ->). exists s. rewrite Hcontent in *.
    repeat split.
    unfold blank in Hb. apply orb_false_elim in Hb. destruct Hb as [_ Hb].
    intros Hstrip. rewrite Hstrip in Hb. discriminate Hb.
Qed.

(** ** Metadata *)

Lemma append_inj (pre a b : string) : (pre ++ a)%string = (pre ++ b)%string -> a = b.
Proof.
  induction pre as [| c pre IH]; cbn [append]; intros H; [exact H |].
  injection H as H. apply IH. exact H.
Qed.

Lemma lookup_not_in {V} (k : string) (d : list (string * V)) :
  ~ In k (map fst d) -> lookup k d = None.
Proof.
  induction d as [| [k0 v0] d IH]; cbn [lookup map fst In]; intros H; [reflexivity |].
  destruct (String.eqb_spec k0 k) as [-> | Hne]; [exfalso; apply H; left; reflexivity |].
  apply IH. intros Hin. apply H. right. exact Hin.
Qed.

Lemma has_key_setitem {V} (k k' : string) (v : V) (d : list (string * V)) :
  has_key k' (setitem k v d) = (k =? k')%string || has_key k' d.
Proof.
  unfold has_key.
  destruct (String.eqb_spec k k') as [-> | Hne].
  - rewrite lookup_setitem_same. reflexivity.
  - rewrite (lookup_setitem_other k k' v d Hne). reflexivity.
Qed.

(** What the loop of [_scrape_url] over the service-reported fields leaves
    under a prefixed key. *)
Lemma scrape_extra_metadata_lookup (fm : list (string * json)) (k : string) :
  NoDup (map fst fm) ->
  forall md,
    lookup ("firecrawl_" ++ k)%string (scrape_extra_metadata fm md) =
    match lookup k fm with
    | Some v =>
        if negb (PyStr.mem k ["title"; "description"]) && negb (is_none v)
        then Some (py_str v)
        else lookup ("firecrawl_" ++ k)%string md
    | None => lookup ("firecrawl_" ++ k)%string md
    end.
Proof.
  unfold scrape_extra_metadata.
  induction fm as [| [k0 v0] fm IH]; intros Hnd md; [reflexivity |].
  cbn [map fst] in Hnd. inversion Hnd as [| ? ? Hnotin Hnd']; subst.
  cbn [fold_left lookup].
  rewrite (IH Hnd').
  destruct (String.eqb_spec k0 k) as [-> | Hne].
  - rewrite (lookup_not_in k fm Hnotin).
    destruct (negb (PyStr.mem k ["title"; "description"]) && negb (is_none v0));
      [| reflexivity].
    destruct (is_dict_or_list v0); apply lookup_setitem_same.
  - assert (Hother : forall (x : pyval) (md0 : list (string * pyval)),
               lookup ("firecrawl_" ++ k)%string (setitem ("firecrawl_" ++ k0)%string x md0) =
               lookup ("firecrawl_" ++ k)%string md0).
    { intros x md0. apply lookup_setitem_other. intros Heq. apply Hne.
      eapply append_inj. exact Heq. }
    destruct (lookup k fm) as [v |].
    + destruct (negb (PyStr.mem k ["title"; "description"]) && negb (is_none v));
        [reflexivity |].
      destruct (negb (PyStr.mem k0 ["title"; "description"]) && negb (is_none v0));
        [| reflexivity].
      destruct (is_dict_or_list v0); apply Hother.
    + destruct (negb (PyStr.mem k0 ["title"; "description"]) && negb (is_none v0));
        [| reflexivity].
      destruct (is_dict_or_list v0); apply Hother.
Qed.

(** The loop only writes prefixed keys. *)
Lemma scrape_extra_metadata_other (fm : list (string * json)) (key : string) :
  PyStr.startswith key "firecrawl_" = false ->
  forall md, lookup key (scrape_extra_metadata fm md) = lookup key md.
Proof.
  intros Hkey. unfold scrape_extra_metadata.
  induction fm as [| [k0 v0] fm IH]; intros md; [reflexivity |].
  cbn [fold_left]. rewrite IH.
  destruct (negb (PyStr.mem k0 ["title"; "description"]) && negb (is_none v0));
    [| reflexivity].
  assert (Hne : ("firecrawl_" ++ k0)%string <> key).
  { intros <-. unfold PyStr.startswith in Hkey.
    assert (Hp : String.prefix "firecrawl_" ("firecrawl_" ++ k0) = true).
    { cbn. repeat (destruct (Ascii.ascii_dec _ _); [| congruence]). apply prefix_empty. }
    rewrite Hp in Hkey. discriminate Hkey. }
  destruct (is_dict_or_list v0); apply lookup_setitem_other; exact Hne.
Qed.

(** X6. The metadata of a scraped document.  ["source"] and ["url"] are the
    URL asked for and ["content_length"] is the length of the content,
    whatever the service reports.  Every field the service reports besides
    ["title"] and ["description"], with a value that is not null, is stored
    under its name prefixed with ["firecrawl_"], as [str] of its value; a null
    field is not stored.  So ["firecrawl_mode"] says "scrape" unless the
    service reports a field ["mode"] that is not null, whose [str] then
    replaces it. *)
Theorem scrape_metadata_fields (url s : string) (data : json) :
  NoDup (map fst (service_metadata data)) ->
  let md := scrape_metadata url (JStr s) data in
  lookup "source" md = Some (Val (JStr url))
  /\ lookup "url" md = Some (Val (JStr url))
  /\ lookup "content_length" md = Some (Val (JInt (PyStr.len s)))
  /\ (forall k v,
         lookup k (service_metadata data) = Some v ->
         k <> "title" -> k <> "description" -> v <> JNull ->
         lookup ("firecrawl_" ++ k)%string md = Some (py_str v))
  /\ (forall k,
         k <> "mode" ->
         lookup k (service_metadata data) = None
         \/ lookup k (service_metadata data) = Some JNull
         \/ k = "title" \/ k = "description" ->
         lookup ("firecrawl_" ++ k)%string md = None)
  /\ lookup "firecrawl_mode" md =
     Some (match lookup "mode" (service_metadata data) with
           | Some v => if is_none v then Val (JStr "scrape") else py_str v
           | None => Val (JStr "scrape")
           end).
Proof.
  intros Hnd. cbv zeta. unfold scrape_metadata.
  assert (Hbase : forall (k : string) (md0 : list (string * pyval)),
             md0 = [("source", Val (JStr url)); ("url", Val (JStr url));
                    ("firecrawl_mode", Val (JStr "scrape"));
                    ("content_length", Val (JInt (PyStr.len s)))]
             \/ (exists t d,
                    md0 = [("source", Val (JStr url)); ("url", Val (JStr url));
                           ("firecrawl_mode", Val (JStr "scrape"));
                           ("content_length", Val (JInt (PyStr.len s)));
                           ("title", t); ("description", d)]) ->
             lookup ("firecrawl_" ++ k)%string md0 =
             if ("mode" =? k)%string then Some (Val (JStr "scrape")) else None).
  { intros k md0 [-> | (t & d & ->)]; cbn; destruct ("mode" =? k)%string; reflexivity. }
  assert (Hnone : forall v, is_none v = false <-> v <> JNull).
  { intros v. destruct v; cbn; split; congruence. }
  unfold service_metadata in *.
  destruct (lookup "metadata" (dict_items data)) as [[| | | | | | fm] |];
    try (repeat split; try reflexivity;
         [ intros k v Hk; discriminate Hk
         | intros k Hk _; rewrite (Hbase k _ (or_introl eq_refl));
           destruct (String.eqb_spec "mode" k); [congruence | reflexivity] ]).
  cbn [setitem String.eqb Ascii.eqb Bool.eqb].
  repeat split.
  - rewrite scrape_extra_metadata_other by reflexivity. reflexivity.
  - rewrite scrape_extra_metadata_other by reflexivity. reflexivity.
  - rewrite scrape_extra_metadata_other by reflexivity. reflexivity.
  - intros k v Hk Ht Hd Hv. rewrite (scrape_extra_metadata_lookup fm k Hnd), Hk.
    replace (PyStr.mem k ["title"; "description"]) with false.
    + apply Hnone in Hv. rewrite Hv. reflexivity.
    + symmetry. cbn. destruct (String.eqb_spec k "title"); [contradiction |].
      destruct (String.eqb_spec k "description"); [contradiction | reflexivity].
  - intros k Hmode Hk. rewrite (scrape_extra_metadata_lookup fm k Hnd).
    rewrite (Hbase k _ (or_intror (ex_intro _ _ (ex_intro _ _ eq_refl)))).
    destruct (String.eqb_spec "mode" k) as [<- | _]; [congruence |].
    destruct Hk as [-> | [-> | [-> | ->]]].
    + reflexivity.
    + cbn [is_none negb]. rewrite andb_false_r. reflexivity.
    + destruct (lookup "title" fm); reflexivity.
    + destruct (lookup "description" fm); reflexivity.
  - change "firecrawl_mode" with ("firecrawl_" ++ "mode")%string.
    rewrite (scrape_extra_metadata_lookup fm "mode" Hnd).
    destruct (lookup "mode" fm) as [v |]; [| reflexivity].
    cbn. destruct (is_none v); reflexivity.
Qed.

Lemma startswith_prefixed (k : string) : PyStr.startswith ("firecrawl_" ++ k) "firecrawl_" = true.
Proof.
  unfold PyStr.startswith. cbn.
  repeat (destruct (Ascii.ascii_dec _ _); [| congruence]). apply prefix_empty.
Qed.

(** The loop of [_collect_results_sync] only writes prefixed keys. *)
Lemma crawl_extra_metadata_other (fm : list (string * json)) (key : string) :
  PyStr.startswith key "firecrawl_" = false ->
  forall md, lookup key (crawl_extra_metadata fm md) = lookup key md.
Proof.
  intros Hkey. unfold crawl_extra_metadata.
  induction fm as [| [k0 v0] fm IH]; intros md; [reflexivity |].
  cbn [fold_left]. rewrite IH.
  destruct (negb (has_key k0 md)); [| reflexivity].
  apply lookup_setitem_other. intros <-.
  rewrite startswith_prefixed in Hkey. discriminate Hkey.
Qed.

(** A field whose name is neither a key the document starts with nor a
    prefixed key is stored, as it is. *)
Lemma crawl_extra_metadata_fresh (fm : list (string * json)) (k : string) :
  NoDup (map fst fm) ->
  PyStr.mem k crawl_base_keys = false ->
  PyStr.startswith k "firecrawl_" = false ->
  forall md,
    (forall key, has_key key md = true ->
                 PyStr.mem key crawl_base_keys = true
                 \/ PyStr.startswith key "firecrawl_" = true) ->
    lookup ("firecrawl_" ++ k)%string (crawl_extra_metadata fm md) =
    match lookup k fm with
    | Some v => Some (Val v)
    | None => lookup ("firecrawl_" ++ k)%string md
    end.
Proof.
  intros Hnd Hbase Hpre. unfold crawl_extra_metadata.
  induction fm as [| [k0 v0] fm IH]; intros md Hinv; [reflexivity |].
  cbn [map fst] in Hnd. inversion Hnd as [| ? ? Hnotin Hnd']; subst.
  cbn [fold_left lookup].
  assert (Hinv' : forall key,
             has_key key (if negb (has_key k0 md)
                          then setitem ("firecrawl_" ++ k0)%string (Val v0) md else md) = true ->
             PyStr.mem key crawl_base_keys = true
             \/ PyStr.startswith key "firecrawl_" = true).
  { intros key. destruct (negb (has_key k0 md)); [| apply Hinv].
    rewrite has_key_setitem. intros H. apply orb_prop in H. destruct H as [H | H].
    - apply String.eqb_eq in H. subst key. right. apply startswith_prefixed.
    - apply Hinv. exact H. }
  rewrite (IH Hnd' _ Hinv').
  destruct (String.eqb_spec k0 k) as [-> | Hne].
  - rewrite (lookup_not_in k fm Hnotin).
    assert (Hk : has_key k md = false).
    { destruct (has_key k md) eqn:E; [| reflexivity].
      destruct (Hinv k E) as [H | H]; congruence. }
    rewrite Hk. cbn [negb]. apply lookup_setitem_same.
  - destruct (lookup k fm); [reflexivity |].
    destruct (negb (has_key k0 md)); [| reflexivity].
    apply lookup_setitem_other. intros Heq. apply Hne. eapply append_inj. exact Heq.
Qed.

(** A field named like a key the document starts with is not stored. *)
Lemma crawl_extra_metadata_taken (fm : list (string * json)) (k : string) :
  forall md,
    has_key k md = true ->
    lookup ("firecrawl_" ++ k)%string (crawl_extra_metadata fm md) =
    lookup ("firecrawl_" ++ k)%string md.
Proof.
  unfold crawl_extra_metadata.
  induction fm as [| [k0 v0] fm IH]; intros md Hk; [reflexivity |].
  cbn [fold_left].
  destruct (String.eqb_spec k0 k) as [-> | Hne].
  - rewrite Hk. cbn [negb]. apply IH. exact Hk.
  - destruct (negb (has_key k0 md)).
    + rewrite IH.
      * apply lookup_setitem_other. intros Heq. apply Hne. eapply append_inj. exact Heq.
      * rewrite has_key_setitem, Hk. apply orb_true_r.
    + apply IH. exact Hk.
Qed.

(** X7. The metadata of a crawled document.  ["source"] and ["url"] are the
    page's source, ["job_id"] and ["original_url"] the job and the URL asked
    for, ["title"] and ["description"] what was read for them, whatever else
    the service reports.  A field the service reports is stored under its name
    prefixed with ["firecrawl_"], with its value as it is (null included),
    when its name is none of the seven keys the document starts with (the six
    above and ["firecrawl_mode"]) and has no such prefix itself; a field named
    like one of those seven keys is not stored.  So ["firecrawl_mode"] says "crawl" unless the service reports a
    field ["mode"], whose value then replaces it. *)
Theorem crawl_metadata_fields (job : json) (url : string)
    (item source_url title description : json) :
  NoDup (map fst (service_metadata item)) ->
  let md := crawl_metadata job url item source_url title description in
  lookup "source" md = Some (Val source_url)
  /\ lookup "url" md = Some (Val source_url)
  /\ lookup "title" md = Some (Val title)
  /\ lookup "description" md = Some (Val description)
  /\ lookup "job_id" md = Some (Val job)
  /\ lookup "original_url" md = Some (Val (JStr url))
  /\ (forall k v,
         lookup k (service_metadata item) = Some v ->
         PyStr.mem k crawl_base_keys = false ->
         PyStr.startswith k "firecrawl_" = false ->
         lookup ("firecrawl_" ++ k)%string md = Some (Val v))
  /\ (forall k,
         PyStr.mem k crawl_base_keys = true ->
         lookup ("firecrawl_" ++ k)%string md = None)
  /\ lookup "firecrawl_mode" md =
     Some (Val (match lookup "mode" (service_metadata item) with
                | Some v => v
                | None => JStr "crawl"
                end)).
Proof.
  intros Hnd. cbv zeta. unfold crawl_metadata.
  set (base := [("source", Val source_url); ("title", Val title);
                ("description", Val description); ("url", Val source_url);
                ("firecrawl_mode", Val (JStr "crawl")); ("job_id", Val job);
                ("original_url", Val (JStr url))]).
  assert (Hkeys : forall key, has_key key base = PyStr.mem key crawl_base_keys).
  { intros key. unfold has_key, base, crawl_base_keys, PyStr.mem. cbn [lookup existsb].
    rewrite !(String.eqb_sym key).
    repeat match goal with
           | |- context [(?a =? key)%string] => destruct (a =? key)%string; cbn [orb]
           end; reflexivity. }
  assert (Htaken : forall k, PyStr.mem k crawl_base_keys = true ->
                             lookup ("firecrawl_" ++ k)%string base = None).
  { intros k Hk. unfold crawl_base_keys, PyStr.mem in Hk.
    apply existsb_exists in Hk. destruct Hk as (x & Hin & Heq).
    apply String.eqb_eq in Heq. subst x. cbn [In] in Hin.
    repeat (destruct Hin as [<- | Hin]; [reflexivity |]). contradiction. }
  assert (Hmode : forall k, lookup ("firecrawl_" ++ k)%string base =
                            if ("mode" =? k)%string then Some (Val (JStr "crawl")) else None).
  { intros k. unfold base. cbn. destruct ("mode" =? k)%string; reflexivity. }
  unfold service_metadata in *.
  destruct (lookup "metadata" (dict_items item)) as [[| | | | | | fm] |];
    try (repeat split; try reflexivity;
         [ intros k v Hk; discriminate Hk | exact Htaken ]).
  repeat split; try (rewrite crawl_extra_metadata_other by reflexivity; reflexivity).
  - intros k v Hk Hbase Hpre.
    rewrite (crawl_extra_metadata_fresh fm k Hnd Hbase Hpre), Hk; [reflexivity |].
    intros key Hkey. left. rewrite <- Hkeys. exact Hkey.
  - intros k Hk. rewrite crawl_extra_metadata_taken.
    + apply Htaken. exact Hk.
    + rewrite Hkeys. exact Hk.
  - change "firecrawl_mode" with ("firecrawl_" ++ "mode")%string.
    rewrite (crawl_extra_metadata_fresh fm "mode" Hnd) by
      first [reflexivity | intros key Hkey; left; rewrite <- Hkeys; exact Hkey].
    destruct (lookup "mode" fm); reflexivity.
Qed.

(** ** Collecting the pages of a job *)




(** ** The constructor *)

(** X2. [FireCrawlLoader(urls, api_key, api_url, mode)] raises [ValueError]
    exactly when [urls] is an empty string or an empty list, or the key is
    empty.  Otherwise the loader has at least one URL, a single string having
    become a list of one, every request it builds carries the header
    [Authorization: Bearer <api_key>] with the key given, and the body of a
    scrape or crawl submission is the URL under ["url"] followed by the
    default options, none of which replaces the URL. *)
Theorem constructed_loader (us : urls_arg) (key base : string) (m : ExtractUrlMode) :
  match __init__ us key base m with
  | Ok self =>
      us <> OneUrl "" /\ us <> UrlList [] /\ key <> ""
      /\ urls self <> [] /\ (forall u, us = OneUrl u -> urls self = [u])
      /\ mode self = m
      /\ lookup "Authorization" (_get_headers self) = Some ("Bearer " ++ key)%string
      /\ (forall url, build_payload url (scrape_options self)
                      = JDict (("url", JStr url) :: default_scrape_options))
      /\ (forall url, build_payload url (crawl_options self)
                      = JDict (("url", JStr url) :: default_crawl_options))
  | Raise e =>
      exn_class_of e = ValueError /\ (us = OneUrl "" \/ us = UrlList [] \/ key = "")
  | Outside => False
  end.
Proof.
  unfold __init__.
  destruct us as [u | [| u l]].
  - destruct (String.eqb_spec u "") as [-> | Hu].
    + split; [reflexivity | left; reflexivity].
    + destruct (String.eqb_spec key "") as [-> | Hk].
      * split; [reflexivity | right; right; reflexivity].
      * cbn [urls mode api_key scrape_options crawl_options].
        repeat split; try reflexivity; try discriminate; try assumption.
        -- intros H. inversion H. contradiction.
        -- intros u0 H. inversion H. reflexivity.
  - split; [reflexivity | right; left; reflexivity].
  - destruct (String.eqb_spec key "") as [-> | Hk].
    + split; [reflexivity | right; right; reflexivity].
    + cbn [urls mode api_key scrape_options crawl_options].
      repeat split; try reflexivity; try discriminate; try assumption.
Qed.

(** ** Polling a job *)

(** The turns [poll_loop] spends on responses that make it wait. *)
Lemma poll_loop_waits (self : FireCrawlLoader) (job : json) (status_url url : string)
    (start : float) (later_replies : list reply) (later_clock : list float) (turns : nat) :
  forall (rs : list Response) (ts : list float) (w : world),
    List.length ts = List.length rs ->
    clock w = ts ++ later_clock ->
    replies w = map Answered rs ++ later_replies ->
    forallb (in_time start) ts = true ->
    forallb in_progress rs = true ->
    exists w1,
      poll_loop (List.length rs + turns) self job status_url url start w
      = poll_loop turns self job status_url url start w1
      /\ replies w1 = later_replies /\ clock w1 = later_clock
      /\ trace w1 = trace w
                    ++ List.concat (List.repeat [Sent (status_request self status_url);
                                       Slept poll_interval] (List.length rs))
      /\ exists records, log w1 = log w ++ records.
Proof.
  induction rs as [| r rs IH]; intros ts w Hlen Hclock Hreplies Htimes Hwaits.
  - destruct ts; [| discriminate Hlen]. exists w. cbn [List.length Nat.add List.repeat List.concat]. rewrite app_nil_r.
    split; [reflexivity |]. split; [exact Hreplies |]. split; [exact Hclock |].
    split; [reflexivity |]. exists (@nil log_record). rewrite app_nil_r. reflexivity.
  - destruct ts as [| t ts]; [discriminate Hlen |].
    cbn [forallb] in Htimes, Hwaits.
    apply andb_prop in Htimes. destruct Htimes as [Ht Htimes].
    apply andb_prop in Hwaits. destruct Hwaits as [Hr Hwaits].
    unfold in_progress in Hr. apply andb_prop in Hr. destruct Hr as [Hok Hr].
    destruct (resp_json r) as [why | [| | | | | | body]] eqn:Hjson; try discriminate Hr.
    apply andb_prop in Hr. destruct Hr as [Hr Hprogress].
    apply andb_prop in Hr. destruct Hr as [Hnc Hnf].
    apply negb_true_iff in Hnc, Hnf. unfold in_time in Ht. apply negb_true_iff in Ht.
    unfold status_of in Hnc, Hnf.
    cbn [map app] in Hreplies. cbn [app] in Hclock.
    cbn [List.length Nat.add poll_loop].
    rewrite bind_time, Hclock, Ht.
    repeat run_step.
    rewrite Hnc, Hnf.
    repeat run_step.
    destruct (progress_check _ _) as [[] | |] eqn:Hp; try discriminate Hprogress.
    repeat run_step.
    match goal with
    | |- context [poll_loop _ _ _ _ _ _ ?w0] =>
        destruct (IH ts w0) as (w1 & E & H1 & H2 & H3 & recs & H4);
          [ cbn [List.length] in Hlen; lia | reflexivity | reflexivity
          | exact Htimes | exact Hwaits | ]
    end.
    exists w1. rewrite E. split; [reflexivity |]. split; [exact H1 |]. split; [exact H2 |].
    split.
    + rewrite H3. unfold answered. cbn [trace List.repeat List.concat List.length].
      rewrite <- !app_assoc. reflexivity.
    + rewrite H4. unfold answered. cbn [log]. rewrite <- !app_assoc. eexists. reflexivity.
Qed.


(** The turn of [poll_loop] that finds the job failed. *)
Lemma poll_loop_failed (self : FireCrawlLoader) (job : json) (status_url url : string)
    (start t : float) (turns : nat) (w : world) (later_clock : list float)
    (r : Response) (later_replies : list reply) (body : list (string * json)) :
  clock w = t :: later_clock ->
  in_time start t = true ->
  replies w = Answered r :: later_replies ->
  resp_ok r = true ->
  resp_json r = inr (JDict body) ->
  status_of body = JStr "failed" \/ status_of body = JStr "error" ->
  let error_message :=
    match lookup "message" body with Some v => v | None => JStr "Unknown crawl error" end in
  exists w1,
    poll_loop (S turns) self job status_url url start w
    = (Raise (Exn Exception [Lit "FireCrawl job failed: "; fmt error_message]), w1)
    /\ replies w1 = later_replies /\ clock w1 = later_clock
    /\ trace w1 = trace w ++ [Sent (status_request self status_url)]
    /\ exists records,
        log w1 = log w ++ records
                 ++ [Log ERROR [Lit "FireCrawl job "; fmt job; Lit " for "; Lit url;
                                Lit " failed: "; fmt error_message]].
Proof.
  intros Hclock Ht Hreplies Hok Hjson Hstatus.
  unfold in_time in Ht. apply negb_true_iff in Ht. unfold status_of in Hstatus.
  cbn [poll_loop].
  rewrite bind_time, Hclock, Ht.
  repeat run_step.
  destruct Hstatus as [Hstatus | Hstatus]; rewrite Hstatus;
    cbn [eq_str String.eqb Ascii.eqb Bool.eqb orb];
    repeat run_step;
    (eexists; split; [reflexivity |]);
    unfold answered; cbn [replies clock trace log tl];
    (split; [reflexivity |]); (split; [reflexivity |]); (split; [reflexivity |]);
    rewrite <- !app_assoc; cbn [app]; eexists [_; _]; reflexivity.
Qed.


Lemma poll_fuel (ts : list float) (rs : list Response) (t : float) (later : list float) :
  List.length ts = List.length rs ->
  S (List.length (ts ++ t :: later)) = (List.length rs + S (S (List.length later)))%nat.
Proof. intros H. rewrite List.length_app. cbn [List.length]. lia. Qed.


(** X10. A job that fails.  With readings and responses as before, but a last
    response whose ["status"] is "failed" or "error",
    [_poll_crawl_status_sync] raises [Exception] with the message "FireCrawl
    job failed: " followed by the ["message"] of that response ("Unknown
    crawl error" when it has none), after the same requests and pauses; the
    last two records it writes are the failure and, from its own handler, an
    "Unexpected error polling status" record that repeats it. *)
Theorem poll_job_failed (self : FireCrawlLoader) (job : json) (status_url url : string)
    (w : world) (start t : float) (ts later_clock : list float)
    (rs : list Response) (r : Response) (later_replies : list reply)
    (body : list (string * json)) :
  clock w = start :: ts ++ t :: later_clock ->
  replies w = map Answered rs ++ Answered r :: later_replies ->
  List.length ts = List.length rs ->
  forallb (in_time start) ts = true ->
  in_time start t = true ->
  forallb in_progress rs = true ->
  resp_ok r = true ->
  resp_json r = inr (JDict body) ->
  status_of body = JStr "failed" \/ status_of body = JStr "error" ->
  let error_message :=
    match lookup "message" body with Some v => v | None => JStr "Unknown crawl error" end in
  let e := Exn Exception [Lit "FireCrawl job failed: "; fmt error_message] in
  let run := _poll_crawl_status_sync self job status_url url w in
  fst run = Raise e
  /\ replies (snd run) = later_replies
  /\ clock (snd run) = later_clock
  /\ trace (snd run) = trace w ++ polling_trace self status_url (List.length rs)
  /\ exists records,
      log (snd run)
      = log w ++ records
        ++ [Log ERROR [Lit "FireCrawl job "; fmt job; Lit " for "; Lit url;
                       Lit " failed: "; fmt error_message];
            poll_handler_record job url e].
Proof.
  intros Hclock Hreplies Hlen Htimes Ht Hwaits Hok Hjson Hstatus error_message e run.
  subst run. unfold _poll_crawl_status_sync.
  rewrite bind_log, bind_time. cbn [clock]. rewrite Hclock. cbn [replies trace log].
  match goal with
  | |- context [try_except ?b (log_and_reraise ?p ?q) ?w0] =>
      destruct (poll_loop_waits self job status_url url start
                  (Answered r :: later_replies) (t :: later_clock)
                  (S (S (List.length later_clock))) rs ts w0 Hlen eq_refl Hreplies
                  Htimes Hwaits) as (w1 & E1 & R1 & C1 & T1 & recs1 & L1);
        destruct (poll_loop_failed self job status_url url start t
                    (S (List.length later_clock)) w1 later_clock r later_replies body
                    C1 Ht R1 Hok Hjson Hstatus) as (w2 & E2 & R2 & C2 & T2 & recs2 & L2);
        assert (Hbody : b w0 = (Raise e, w2))
          by (cbv beta; cbn [clock]; rewrite (poll_fuel ts rs t later_clock Hlen), E1;
              exact E2);
        rewrite (try_except_raise b p q w0 e w2 Hbody)
  end.
  unfold logged. cbn [fst snd replies clock trace log].
  split; [reflexivity |]. split; [exact R2 |]. split; [exact C2 |].
  split.
  - rewrite T2, T1. unfold polling_trace. cbn [trace]. rewrite <- app_assoc. reflexivity.
  - rewrite L2, L1. cbn [log].
    exists (Log INFO [Lit "Starting sync polling for FireCrawl job "; fmt job;
                      Lit " (URL: "; Lit url; Lit ")."] :: recs1 ++ recs2).
    unfold poll_handler_record. rewrite <- !app_assoc. cbn [app].
    rewrite <- !app_assoc. reflexivity.
Qed.

(** ** Progress that cannot be computed *)




(** ** Submitting a crawl job *)

(** X11. When the answer to a crawl submission has no job identifier or no
    status URL (missing, null, empty, zero or false), [_crawl_url] raises
    [Exception] with the message "FireCrawl crawl submission failed: "
    followed by the ["message"] of the answer, or, when it has none, by a
    sentence that names what is missing, the job identifier being looked at
    first.  One request was sent, no status was asked for and no clock read;
    the log has the two records of the submission, the failure and the
    handler's record. *)
Theorem crawl_submission_refused (self : FireCrawlLoader) (url crawl_submit_url : string)
    (w : world) (r : Response) (rest : list reply) (body : list (string * json)) :
  Url.urljoin (api_url self) "/v1/crawl" = Ok crawl_submit_url ->
  replies w = Answered r :: rest ->
  resp_ok r = true ->
  resp_json r = inr (JDict body) ->
  truthy (job_id_of body) = false \/ truthy (status_url_of body) = false ->
  let error_message :=
    match lookup "message" body with
    | Some v => v
    | None =>
        JStr (if truthy (job_id_of body)
              then "FireCrawl crawl submission did not return a status URL."
              else "FireCrawl crawl submission did not return a job ID.")
    end in
  let e := Exn Exception [Lit "FireCrawl crawl submission failed: "; fmt error_message] in
  _crawl_url self url w =
  (Raise e,
   logged (answered w (crawl_request self url crawl_submit_url))
     (submitting_records self url
      ++ [Log ERROR [Lit "FireCrawl crawl submission failed for "; Lit url; Lit ": ";
                     fmt error_message];
          crawl_handler_record url e])).
Proof.
  intros Hu Hr Hok Hj Hmissing. cbv zeta. unfold _crawl_url, job_id_of, status_url_of in *.
  match goal with
  | |- try_except ?b _ w = (Raise ?e, _) =>
      assert (Hbody : b w =
                (Raise e,
                 logged (answered w (crawl_request self url crawl_submit_url))
                   (submitting_records self url
                    ++ [Log ERROR (Lit "FireCrawl crawl submission failed for "
                                   :: Lit url :: Lit ": " :: tl (exn_msg e))])))
  end.
  { cbn [exn_msg tl]. repeat run_step.
    destruct (truthy match lookup "id" body with Some v => v | None => JNull end) eqn:Hid.
    - destruct Hmissing as [Hm | Hm]; [discriminate Hm |].
      repeat run_step. rewrite Hm. repeat run_step. unfold raise, submitting_records. f_equal. same_world.
    - repeat run_step. unfold raise, submitting_records. f_equal. same_world. }
  rewrite (try_except_raise _ _ _ _ _ _ Hbody). f_equal.
  unfold crawl_handler_record, submitting_records. cbn [exn_msg tl]. same_world.
Qed.


(** X13. A status URL that is there but is not a string (a number, a list, an
    object) makes [_crawl_url] raise [AttributeError], for want of
    [startswith], after the one request of the submission: no status is asked
    for and the job is left to itself. *)
Theorem crawl_status_url_not_text (self : FireCrawlLoader) (url crawl_submit_url : string)
    (w : world) (r : Response) (rest : list reply) (body : list (string * json)) :
  Url.urljoin (api_url self) "/v1/crawl" = Ok crawl_submit_url ->
  replies w = Answered r :: rest ->
  resp_ok r = true ->
  resp_json r = inr (JDict body) ->
  truthy (job_id_of body) = true ->
  truthy (status_url_of body) = true ->
  (forall s, status_url_of body <> JStr s) ->
  let e := Exn AttributeError
             [Lit "'"; Lit (type_name (status_url_of body));
              Lit "' object has no attribute '"; Lit "startswith"; Lit "'"] in
  _crawl_url self url w =
  (Raise e,
   logged (answered w (crawl_request self url crawl_submit_url))
     (submitting_records self url ++ [crawl_handler_record url e])).
Proof.
  intros Hu Hr Hok Hj Hid Hurl Hs. cbv zeta. unfold _crawl_url, job_id_of, status_url_of in *.
  match goal with
  | |- try_except ?b _ w = (Raise ?e, _) =>
      assert (Hbody : b w =
                (Raise e,
                 logged (answered w (crawl_request self url crawl_submit_url))
                   (submitting_records self url)))
  end.
  { repeat run_step. rewrite Hid. repeat run_step. rewrite Hurl. repeat run_step.
    destruct (match lookup "url" body with Some v => v | None => JNull end) eqn:Hv;
      try (exfalso; eapply Hs; reflexivity);
      cbn [py_startswith_self attribute_error]; f_equal;
      unfold submitting_records; same_world. }
  rewrite (try_except_raise _ _ _ _ _ _ Hbody). f_equal.
  unfold crawl_handler_record, submitting_records. same_world.
Qed.

(** ** Failures *)

Lemma try_except_raise_inv {A} (body : M A) (p q : fstring) (w : world) (e : exn) (w' : world) :
  try_except body (log_and_reraise p q) w = (Raise e, w') ->
  exists w1, body w = (Raise e, w1) /\ w' = logged w1 [handler_record p q e].
Proof.
  unfold try_except, log_and_reraise, handler_record, logged.
  destruct (body w) as [[a | e0 |] w1]; try discriminate.
  destruct (is_http_error e0) eqn:Hh; cbn; intros E; inversion E; subst;
    exists w1; rewrite Hh; split; reflexivity.
Qed.

(** X14. No exception leaves [_scrape_url], [_poll_crawl_status_sync] or
    [_crawl_url] unrecorded: whenever one of them raises, whatever the cause,
    the last record of the log is the ERROR record of its handler for that
    very exception, which is the one its body raised. *)
Theorem failures_are_recorded (self : FireCrawlLoader) :
  (forall url w e w',
      _scrape_url self url w = (Raise e, w') ->
      exists earlier, log w' = earlier ++ [scrape_handler_record url e])
  /\ (forall job status_url url w e w',
         _poll_crawl_status_sync self job status_url url w = (Raise e, w') ->
         exists earlier, log w' = earlier ++ [poll_handler_record job url e])
  /\ (forall url w e w',
         _crawl_url self url w = (Raise e, w') ->
         exists earlier, log w' = earlier ++ [crawl_handler_record url e]).
Proof.
  split; [| split].
  - intros url w e w' E. unfold _scrape_url in E.
    apply try_except_raise_inv in E. destruct E as (w1 & _ & ->).
    exists (log w1). reflexivity.
  - intros job status_url url w e w' E. unfold _poll_crawl_status_sync in E.
    rewrite bind_log, bind_time in E. cbn [clock] in E.
    destruct (clock w) as [| start rest]; [discriminate E |].
    apply try_except_raise_inv in E. destruct E as (w1 & _ & ->).
    exists (log w1). reflexivity.
  - intros url w e w' E. unfold _crawl_url in E.
    apply try_except_raise_inv in E. destruct E as (w1 & _ & ->).
    exists (log w1). reflexivity.
Qed.

(** ** Loading several URLs *)

(** X15. The first URL that fails ends the load.  When the URLs before [u]
    have yielded [docs] and the work for [u] raises, [lazy_load] has yielded
    [docs] and nothing else, ends with that exception, and leaves the world
    as the failure left it: nothing is sent, read or written for the URLs
    after [u], whatever the mode. *)
Theorem load_stops_at_first_failure (self : FireCrawlLoader) (first later : list string)
    (u : string) (w w1 w2 : world) (docs : list Document) (e : exn) :
  urls self = first ++ u :: later ->
  generate (docs_for_url self) first w = (docs, Ok tt, w1) ->
  docs_for_url self u w1 = (Raise e, w2) ->
  lazy_load self w = (docs, Raise e, w2).
Proof.
  intros Hurls Hfirst Hu. unfold lazy_load. rewrite Hurls, generate_app, Hfirst.
  cbn [generate]. rewrite Hu. rewrite app_nil_r. reflexivity.
Qed.

(** * Sample runs *)

Lemma scrape_service_failure_example :
  let w := fresh_world [Answered (ok_response (JDict refused_scrape))] [] in
  let e := Exn Exception [Lit "FireCrawl scrape failed: "; fmt (JStr "blocked")] in
  _scrape_url sample_scraper "https://example.com" w =
  (Raise e,
   logged (answered w (scrape_request sample_scraper "https://example.com"
                         sample_scrape_endpoint))
     [scraping_record sample_scraper "https://example.com";
      Log ERROR [Lit "FireCrawl scrape failed for "; Lit "https://example.com"; Lit ": ";
                 fmt (JStr "blocked")];
      scrape_handler_record "https://example.com" e]).
Proof.
  exact (scrape_service_failure sample_scraper "https://example.com" sample_scrape_endpoint
           (fresh_world [Answered (ok_response (JDict refused_scrape))] [])
           (ok_response (JDict refused_scrape)) [] refused_scrape
           eq_refl eq_refl eq_refl eq_refl eq_refl).
Defined.

Lemma scrape_transport_failure_example :
  let w := fresh_world [Answered (error_response 503 "Service Unavailable")] [] in
  exists e,
    _scrape_url sample_scraper "https://example.com" w =
    (Raise e,
     logged (answered w (scrape_request sample_scraper "https://example.com"
                           sample_scrape_endpoint))
       [scraping_record sample_scraper "https://example.com";
        scrape_handler_record "https://example.com" e])
    /\ exn_class_of e = HTTPError (error_response 503 "Service Unavailable")
    /\ log_message (scrape_handler_record "https://example.com" e) =
       [Lit "HTTP error scraping "; Lit "https://example.com"; Lit ": ";
        Int 503; Lit " - "] ++ exn_msg e.
Proof.
  exact (scrape_transport_failure sample_scraper "https://example.com" sample_scrape_endpoint
           (fresh_world [Answered (error_response 503 "Service Unavailable")] [])
           (Answered (error_response 503 "Service Unavailable")) []
           eq_refl eq_refl (or_introl eq_refl)).
Defined.

Lemma scrape_returns_the_page_example :
  let w := fresh_world [Answered (ok_response sample_scraped_page)] [] in
  let w' := snd (_scrape_url sample_scraper "https://example.com" w) in
  let docs := [{| page_content := JStr "# Hello";
                  metadata := scrape_metadata "https://example.com" (JStr "# Hello")
                                sample_page_data |}] in
  exists scrape_url r body,
    Url.urljoin (api_url sample_scraper) "/v1/scrape" = Ok scrape_url
    /\ replies w = Answered r :: replies w'
    /\ clock w' = clock w
    /\ trace w' = trace w ++ [Sent (scrape_request sample_scraper "https://example.com"
                                      scrape_url)]
    /\ scrape_succeeded r body
    /\ let content := page_content_of (scraped_data body) in
       if blank content then docs = []
       else exists s,
           content = JStr s
           /\ PyStr.strip_ws s <> ""
           /\ docs = [{| page_content := JStr s;
                         metadata := scrape_metadata "https://example.com" (JStr s)
                                       (scraped_data body) |}].
Proof.
  cbv zeta.
  apply (scrape_returns_the_page sample_scraper "https://example.com"
           (fresh_world [Answered (ok_response sample_scraped_page)] [])).
  vm_compute. reflexivity.
Defined.

(** The keys of a sample are distinct. *)
Ltac distinct_keys :=
  repeat (constructor; [cbn; intuition discriminate |]); constructor.

Lemma scrape_metadata_fields_example :
  let md := scrape_metadata "https://example.com" (JStr "# Hello") sample_page_data in
  lookup "content_length" md = Some (Val (JInt 7))
  /\ lookup "firecrawl_language" md = Some (py_str (JStr "en"))
  /\ lookup "firecrawl_keywords" md = Some (py_str (JList [JStr "a"; JStr "b"]))
  /\ lookup "firecrawl_ogImage" md = None
  /\ lookup "firecrawl_title" md = None
  /\ lookup "firecrawl_mode" md = Some (Val (JStr "scrape")).
Proof.
  cbv zeta.
  assert (Hkeys : NoDup (map fst (service_metadata sample_page_data))) by distinct_keys.
  destruct (scrape_metadata_fields "https://example.com" "# Hello" sample_page_data Hkeys)
    as (_ & _ & Hlen & Hkept & Hleft & Hmode).
  split; [exact Hlen |].
  split; [apply (Hkept "language"); [reflexivity | discriminate ..] |].
  split; [apply (Hkept "keywords"); [reflexivity | discriminate ..] |].
  split; [apply (Hleft "ogImage"); [discriminate | right; left; reflexivity] |].
  split; [apply (Hleft "title"); [discriminate | right; right; left; reflexivity] |].
  exact Hmode.
Defined.

Lemma crawl_metadata_fields_example :
  let source_url := JStr "https://example.com/hello" in
  let md := crawl_metadata (JStr "job1") "https://example.com" sample_crawled_page
              source_url (JStr "Hello") (JStr "") in
  lookup "url" md = Some (Val source_url)
  /\ lookup "firecrawl_language" md = Some (Val (JStr "en"))
  /\ lookup "firecrawl_ogImage" md = Some (Val JNull)
  /\ lookup "firecrawl_url" md = None
  /\ lookup "firecrawl_title" md = None.
Proof.
  cbv zeta.
  assert (Hkeys : NoDup (map fst (service_metadata sample_crawled_page))) by distinct_keys.
  destruct (crawl_metadata_fields (JStr "job1") "https://example.com" sample_crawled_page
              (JStr "https://example.com/hello") (JStr "Hello") (JStr "") Hkeys)
    as (_ & Hurl & _ & _ & _ & _ & Hkept & Hleft & _).
  split; [exact Hurl |].
  split; [apply (Hkept "language"); reflexivity |].
  split; [apply (Hkept "ogImage"); reflexivity |].
  split; [apply (Hleft "url"); reflexivity |].
  apply (Hleft "title"); reflexivity.
Defined.


Lemma poll_job_failed_example :
  let w := fresh_world [Answered job_under_way; Answered (ok_response (JDict job_failed))]
             [100%float; 101%float; 106%float] in
  let e := Exn Exception [Lit "FireCrawl job failed: "; fmt (JStr "out of credits")] in
  let run := _poll_crawl_status_sync sample_crawler (JStr "job1") sample_status_url
               "https://example.com" w in
  fst run = Raise e
  /\ replies (snd run) = []
  /\ clock (snd run) = []
  /\ trace (snd run) =
     [Sent (status_request sample_crawler sample_status_url); Slept 5;
      Sent (status_request sample_crawler sample_status_url)]
  /\ exists records,
      log (snd run)
      = records
        ++ [Log ERROR [Lit "FireCrawl job "; fmt (JStr "job1"); Lit " for ";
                       Lit "https://example.com"; Lit " failed: ";
                       fmt (JStr "out of credits")];
            poll_handler_record (JStr "job1") "https://example.com" e].
Proof.
  exact (poll_job_failed sample_crawler (JStr "job1") sample_status_url "https://example.com"
           (fresh_world [Answered job_under_way; Answered (ok_response (JDict job_failed))]
              [100%float; 101%float; 106%float])
           100%float 106%float [101%float] [] [job_under_way] (ok_response (JDict job_failed))
           [] job_failed
           eq_refl eq_refl eq_refl eq_refl eq_refl eq_refl eq_refl eq_refl
           (or_introl eq_refl)).
Defined.

Lemma crawl_submission_refused_example :
  let w := fresh_world [Answered (ok_response (JDict submission_refused))] [] in
  let e := Exn Exception [Lit "FireCrawl crawl submission failed: ";
                          fmt (JStr "limit reached")] in
  _crawl_url sample_crawler "https://example.com" w =
  (Raise e,
   logged (answered w (crawl_request sample_crawler "https://example.com"
                         sample_crawl_endpoint))
     (submitting_records sample_crawler "https://example.com"
      ++ [Log ERROR [Lit "FireCrawl crawl submission failed for ";
                     Lit "https://example.com"; Lit ": "; fmt (JStr "limit reached")];
          crawl_handler_record "https://example.com" e])).
Proof.
  exact (crawl_submission_refused sample_crawler "https://example.com" sample_crawl_endpoint
           (fresh_world [Answered (ok_response (JDict submission_refused))] [])
           (ok_response (JDict submission_refused)) [] submission_refused
           eq_refl eq_refl eq_refl eq_refl (or_introl eq_refl)).
Defined.


Lemma crawl_status_url_not_text_example :
  let w := fresh_world [Answered (ok_response (JDict submission_odd))] [] in
  let e := Exn AttributeError
             [Lit "'"; Lit "int"; Lit "' object has no attribute '"; Lit "startswith";
              Lit "'"] in
  _crawl_url sample_crawler "https://example.com" w =
  (Raise e,
   logged (answered w (crawl_request sample_crawler "https://example.com"
                         sample_crawl_endpoint))
     (submitting_records sample_crawler "https://example.com"
      ++ [crawl_handler_record "https://example.com" e])).
Proof.
  exact (crawl_status_url_not_text sample_crawler "https://example.com" sample_crawl_endpoint
           (fresh_world [Answered (ok_response (JDict submission_odd))] [])
           (ok_response (JDict submission_odd)) [] submission_odd
           eq_refl eq_refl eq_refl eq_refl eq_refl eq_refl
           ltac:(intros s H; vm_compute in H; discriminate H)).
Defined.

Lemma load_stops_at_first_failure_example :
  let self := sample_loader ["https://a.example"; "https://b.example"; "https://c.example"]
                default_api_url SCRAPE in
  let w := fresh_world [Answered (ok_response sample_scraped_page);
                        Answered (error_response 500 "Internal Server Error");
                        Answered (ok_response sample_scraped_page)] [] in
  exists docs e w2,
    lazy_load self w = (docs, Raise e, w2)
    /\ map page_content docs = [JStr "# Hello"]
    /\ exn_class_of e = HTTPError (error_response 500 "Internal Server Error")
    /\ replies w2 = [Answered (ok_response sample_scraped_page)]
    /\ trace w2 = [Sent (scrape_request self "https://a.example" sample_scrape_endpoint);
                   Sent (scrape_request self "https://b.example" sample_scrape_endpoint)].
Proof.
  cbv zeta. eexists _, _, _. split.
  - eapply (load_stops_at_first_failure
             (sample_loader ["https://a.example"; "https://b.example"; "https://c.example"]
                default_api_url SCRAPE)
             ["https://a.example"] ["https://c.example"] "https://b.example"
             (fresh_world [Answered (ok_response sample_scraped_page);
                           Answered (error_response 500 "Internal Server Error");
                           Answered (ok_response sample_scraped_page)] [])).
    + reflexivity.
    + vm_compute. reflexivity.
    + vm_compute. reflexivity.
  - vm_compute. repeat split.
Defined.

